(** * simple-bot/main.py: the LiveKit voice bot's start-up script

    A shallow embedding of [src/simple-bot/simple-bot/main.py].  The script
    reads its configuration from the process environment, builds the
    pipecat services, the shared conversation context, the LiveKit
    transport, the nine-stage pipeline and its task, registers four
    transport event handlers and finally runs the task under a
    [try / except KeyboardInterrupt / finally] block.

    Everything the script does is modelled as a computation in a small
    state-and-exception monad over [Sys]: the heap of mutable Python lists,
    the task's frame queue and a log of the observable calls (prints,
    constructor calls, the runner, the clean-up, what the running pipeline
    sends out).

    The pipecat runtime that [runner.run(task)] starts is not code of this
    repository.  What the task does while it runs (turn taking,
    aggregation, the appends to the context, the audio output and its
    interruption) is modelled from the specification and marked as such. *)

From Stdlib Require Import Floats.PrimFloat Strings.Ascii.
From stdpp Require Import gmap strings list.

Open Scope string_scope.
Open Scope list_scope.

(** Python reads the literals [0.3] and [0.5] as the nearest binary64
    values, and so does [float_scope]. *)
Set Warnings "-inexact-float".

(** ** Python values *)

(** [os.getenv] returns [None] or a [str]; [not v] holds for [None] and for
    the empty string. *)
Definition truthy (v : option string) : bool :=
  match v with
  | Some s => negb (String.eqb s "")
  | None => false
  end.

(** Python's builtin [all] over a list of such values. *)
Definition all (vs : list (option string)) : bool := forallb truthy vs.

(** What an f-string interpolates for an optional string. *)
Definition py_str (v : option string) : string := default "None" v.

Definition getenv (environ : gmap string string) (k : string) : option string :=
  environ !! k.

Definition getenv_default (environ : gmap string string) (k d : string)
  : option string :=
  Some (default d (environ !! k)).

(** ** Exceptions *)

Inductive Exception :=
| ValueError (msg : string)
| ImportError
| KeyboardInterrupt
| OtherException (name : string).

(** ** The objects the script builds *)

Definition loc := nat.

Record Message := { role : string; content : string }.

Record DeepgramSTTService := { stt_api_key : option string }.

Record OpenAILLMService :=
  { llm_api_key : option string; llm_model : string }.

Record OpenAITTSService :=
  { tts_api_key : option string; tts_voice : string; tts_model : string }.

(** [LLMContext(messages)] keeps the list object it was given. *)
Record LLMContext := { messages_ref : loc }.

Record LLMContextAggregatorPair := { pair_context : LLMContext }.

Record VideoGrants :=
  { room_join : bool; room : option string;
    can_publish : bool; can_subscribe : bool }.

Record AccessToken :=
  { at_api_key : option string; at_api_secret : option string;
    at_identity : option string; at_name : option string;
    at_grants : option VideoGrants }.

Record VADParams := { start_secs : float; stop_secs : float }.

Record SileroVADAnalyzer := { vad_params : VADParams }.

Record LiveKitParams :=
  { audio_in_enabled : bool; audio_out_enabled : bool;
    video_in_enabled : bool; video_out_enabled : bool;
    vad_analyzer : SileroVADAnalyzer }.

Record LiveKitTransport :=
  { room_url : option string; token : option string; params : LiveKitParams }.

(** The stages that can be put in a [Pipeline]. *)
Inductive FrameProcessor :=
| TransportInput (t : LiveKitTransport)
| DeepgramSTT (s : DeepgramSTTService)
| LLMUserResponseAggregator
| ContextAggregatorUser (c : LLMContext)
| OpenAILLM (s : OpenAILLMService)
| LLMResponseAggregator
| ContextAggregatorAssistant (c : LLMContext)
| OpenAITTS (s : OpenAITTSService)
| TransportOutput (t : LiveKitTransport).

Definition input (t : LiveKitTransport) : FrameProcessor := TransportInput t.
Definition output (t : LiveKitTransport) : FrameProcessor := TransportOutput t.
Definition user (p : LLMContextAggregatorPair) : FrameProcessor :=
  ContextAggregatorUser (pair_context p).
Definition assistant (p : LLMContextAggregatorPair) : FrameProcessor :=
  ContextAggregatorAssistant (pair_context p).

Record Pipeline := { processors : list FrameProcessor }.

Record PipelineParams := { allow_interruptions : bool; enable_metrics : bool }.

Record PipelineTask := { task_pipeline : Pipeline; task_params : PipelineParams }.

Inductive Frame := LLMRunFrame.

(** ** Observable calls

    Besides the calls the script makes, the log records two things the
    running pipeline does: the interrupt frame it emits for an assistant
    turn, and each piece of synthesized audio its output stage hands to the
    transport, with the assistant turn it belongs to. *)

Inductive Event :=
| Print (line : string)
| Construct (class : string)
| QueueFrames (frames : list Frame)
| RunnerRun
| TransportCleanup
| ControlInterrupt (turn : nat)
| SendAudio (turn : nat) (audio : list Byte.byte).

(** ** The machine state and the monad *)

Record Sys :=
  { heap : gmap loc (list Message);
    queue : list Frame;
    log : list Event }.

Definition initial : Sys := {| heap := ∅; queue := []; log := [] |}.

Definition M (A : Type) : Type := Sys -> Sys * (Exception + A).

Definition ret {A} (a : A) : M A := fun s => (s, inr a).

Definition raise {A} (e : Exception) : M A := fun s => (s, inl e).

Definition bind {A B} (m : M A) (k : A -> M B) : M B :=
  fun s =>
    match m s with
    | (s', inl e) => (s', inl e)
    | (s', inr a) => k a s'
    end.

Declare Scope py_scope.
Delimit Scope py_scope with py.
Notation "x <- m ;; k" := (bind m (fun x => k))
  (at level 100, m at next level, right associativity) : py_scope.
Notation "m ;; k" := (bind m (fun _ => k))
  (at level 100, right associativity) : py_scope.
Open Scope py_scope.

Definition emit (e : Event) : M unit :=
  fun s => ({| heap := heap s; queue := queue s; log := log s ++ [e] |}, inr tt).

Definition print (line : string) : M unit := emit (Print line).

(** Calling a class: the call is logged and the new object returned. *)
Definition construct {A} (class : string) (obj : A) : M A :=
  emit (Construct class) ;; ret obj.

(** A list display allocates a fresh list object. *)
Definition new_list (ms : list Message) : M loc :=
  fun s =>
    let l := fresh (dom (heap s)) in
    ({| heap := <[l := ms]> (heap s); queue := queue s; log := log s |}, inr l).

(** [task.queue_frames(frames)]: the script has a single task, whose queue
    is the [queue] of the state. *)
Definition queue_frames (task : PipelineTask) (frames : list Frame) : M unit :=
  fun s =>
    ({| heap := heap s; queue := queue s ++ frames;
        log := log s ++ [QueueFrames frames] |}, inr tt).

(** [try: body / except <handled>: handler] *)
Definition try_except {A} (body : M A) (handler : Exception -> option (M A))
  : M A :=
  fun s =>
    match body s with
    | (s', inl e) =>
        match handler e with
        | Some h => h s'
        | None => (s', inl e)
        end
    | (s', inr a) => (s', inr a)
    end.

(** [try: body / finally: fin]: [fin] always runs; an exception of [fin]
    replaces the outcome of [body]. *)
Definition try_finally {A} (body : M A) (fin : M unit) : M A :=
  fun s =>
    match body s with
    | (s', r) =>
        match fin s' with
        | (s'', inl e) => (s'', inl e)
        | (s'', inr _) => (s'', r)
        end
    end.

Definition when (b : bool) (m : M unit) : M unit := if b then m else ret tt.

(** ** The world outside the script *)

(** What the transport hands to an event handler: a Python value.  All the
    handlers do with it is read one attribute; a [str] has neither
    [identity] nor [name], an object has the attributes it was given. *)
Inductive PyValue :=
| PyStr (s : string)
| PyObject (attrs : gmap string string).

(** [value.attr]: an [AttributeError] when the value has no such
    attribute. *)
Definition getattr (v : PyValue) (attr : string) : M string :=
  match v with
  | PyObject attrs =>
      match attrs !! attr with
      | Some x => ret x
      | None => raise (OtherException "AttributeError")
      end
  | PyStr _ => raise (OtherException "AttributeError")
  end.

Inductive TransportEvent :=
| ParticipantConnected (payload : PyValue)
| ParticipantDisconnected (payload : PyValue)
| RoomConnected (payload : PyValue)
| RoomDisconnected (payload : PyValue).

(** What reaches the running task from its collaborators: the events of
    the transport, the voice-activity detector's two events, the frames of
    the STT and LLM services, the audio the TTS service synthesizes for an
    assistant turn and the end of that stream, and the moments at which the
    output stage hands the next buffered piece of audio to the
    transport. *)
Inductive Activity :=
| Raised (ev : TransportEvent)
| SpeechStarted
| SpeechStopped
| TranscriptPartial (text : string)
| TranscriptFinal (text : string)
| LLMTextDelta (text : string)
| LLMTurnComplete
| SynthesizedAudio (turn : nat) (audio : list Byte.byte)
| SynthesisDone (turn : nat)
| Playback.

(** What the script cannot control: the environment left by
    [load_dotenv()]; whether [from livekit import api] succeeds, and then
    whether [to_jwt] returns a token or refuses the access token with a
    [ValueError] (it validates the identity and the room); what reaches
    the task while it runs; and how [runner.run] and [transport.cleanup]
    end. *)
Record World :=
  { environ : gmap string string;
    livekit_api : option (AccessToken -> string + string);
    activity : list Activity;
    run_outcome : option Exception;
    cleanup_outcome : option Exception }.

Definition import_livekit (w : World) : M (AccessToken -> string + string) :=
  match livekit_api w with
  | Some to_jwt => ret to_jwt
  | None => raise ImportError
  end.

(** [access.to_jwt()] *)
Definition mint (to_jwt : AccessToken -> string + string) (access : AccessToken)
  : M string :=
  match to_jwt access with
  | inl msg => raise (ValueError msg)
  | inr jwt => ret jwt
  end.

(** The builder calls on [api.AccessToken]. *)
Definition new_AccessToken (key secret : option string) : AccessToken :=
  {| at_api_key := key; at_api_secret := secret;
     at_identity := None; at_name := None; at_grants := None |}.

Definition with_identity (i : option string) (a : AccessToken) : AccessToken :=
  {| at_api_key := at_api_key a; at_api_secret := at_api_secret a;
     at_identity := i; at_name := at_name a; at_grants := at_grants a |}.

Definition with_name (n : string) (a : AccessToken) : AccessToken :=
  {| at_api_key := at_api_key a; at_api_secret := at_api_secret a;
     at_identity := at_identity a; at_name := Some n; at_grants := at_grants a |}.

Definition with_grants (g : VideoGrants) (a : AccessToken) : AccessToken :=
  {| at_api_key := at_api_key a; at_api_secret := at_api_secret a;
     at_identity := at_identity a; at_name := at_name a; at_grants := Some g |}.

(** ** Event handlers *)

Definition Handler : Type := PyValue -> M unit.

Definition on_participant_connected (task : PipelineTask) (participant : PyValue)
  : M unit :=
  identity <- getattr participant "identity" ;;
  print ("Participant connected: " +:+ identity) ;;
  queue_frames task [LLMRunFrame].

Definition on_participant_disconnected (participant : PyValue) : M unit :=
  identity <- getattr participant "identity" ;;
  print ("Participant disconnected: " +:+ identity).

Definition on_room_connected (room : PyValue) : M unit :=
  name <- getattr room "name" ;;
  print ("Bot connected to room: " +:+ name).

Definition on_room_disconnected (room : PyValue) : M unit :=
  name <- getattr room "name" ;;
  print ("Bot disconnected from room: " +:+ name).

(** ** Everything [main] has in scope once the handlers are registered *)

Record App :=
  { app_context : LLMContext;
    app_context_aggregator : LLMContextAggregatorPair;
    app_transport : LiveKitTransport;
    app_pipeline : Pipeline;
    app_task : PipelineTask;
    app_handlers : list (string * Handler) }.

Definition system_prompt : string :=
  "You are a helpful and friendly assistant. "
  +:+ "Keep your responses concise and natural for voice conversation. "
  +:+ "Respond in a conversational, friendly tone.".

(** Lines 42 to 205 of [main]: from the environment checks to the last
    handler registration. *)
Definition setup (w : World) : M App :=
  let livekit_url := getenv (environ w) "LIVEKIT_URL" in
  let livekit_api_key := getenv (environ w) "LIVEKIT_API_KEY" in
  let livekit_api_secret := getenv (environ w) "LIVEKIT_API_SECRET" in
  let openai_api_key := getenv (environ w) "OPENAI_API_KEY" in
  let deepgram_api_key := getenv (environ w) "DEEPGRAM_API_KEY" in
  when (negb (all [livekit_url; livekit_api_key; livekit_api_secret; openai_api_key]))
    (raise (ValueError
       ("Missing required environment variables: "
        +:+ "LIVEKIT_URL, LIVEKIT_API_KEY, LIVEKIT_API_SECRET, OPENAI_API_KEY"))) ;;
  when (negb (truthy deepgram_api_key))
    (print "Warning: DEEPGRAM_API_KEY not set. STT will not work without it." ;;
     print "Get your API key from: https://console.deepgram.com/") ;;
  let room_name := getenv_default (environ w) "LIVEKIT_ROOM" "default-room" in
  let participant_name :=
    getenv_default (environ w) "LIVEKIT_PARTICIPANT_NAME" "assistant" in
  print ("Connecting to LiveKit room: " +:+ py_str room_name) ;;
  print ("LiveKit URL: " +:+ py_str livekit_url) ;;
  when (negb (truthy deepgram_api_key))
    (raise (ValueError "DEEPGRAM_API_KEY is required for STT functionality")) ;;
  stt <- construct "DeepgramSTTService" {| stt_api_key := deepgram_api_key |} ;;
  llm <- construct "OpenAILLMService"
           {| llm_api_key := openai_api_key; llm_model := "gpt-4o-mini" |} ;;
  tts <- construct "OpenAITTSService"
           {| tts_api_key := openai_api_key; tts_voice := "alloy";
              tts_model := "tts-1" |} ;;
  messages <- new_list [ {| role := "system"; content := system_prompt |} ] ;;
  context <- construct "LLMContext" {| messages_ref := messages |} ;;
  context_aggregator <- construct "LLMContextAggregatorPair"
                          {| pair_context := context |} ;;
  user_response_aggregator <- construct "LLMUserResponseAggregator"
                                LLMUserResponseAggregator ;;
  llm_response_aggregator <- construct "LLMResponseAggregator"
                               LLMResponseAggregator ;;
  token <- try_except
             (to_jwt <- import_livekit w ;;
              access <- construct "AccessToken"
                          (new_AccessToken livekit_api_key livekit_api_secret) ;;
              grants <- construct "VideoGrants"
                          {| room_join := true; room := room_name;
                             can_publish := true; can_subscribe := true |} ;;
              jwt <- mint to_jwt (with_grants grants
                                    (with_name "AI Assistant"
                                       (with_identity participant_name access))) ;;
              ret (Some jwt))
             (fun e =>
                match e with
                | ImportError =>
                    Some (let token := getenv (environ w) "LIVEKIT_TOKEN" in
                          when (negb (truthy token))
                            (raise (ValueError
                               ("LIVEKIT_TOKEN required if livekit package not installed. "
                                +:+ "Install with: pip install livekit"))) ;;
                          ret token)
                | _ => None
                end) ;;
  vad_params <- construct "VADParams"
                  {| start_secs := 0.3%float; stop_secs := 0.5%float |} ;;
  vad <- construct "SileroVADAnalyzer" {| vad_params := vad_params |} ;;
  params <- construct "LiveKitParams"
              {| audio_in_enabled := true; audio_out_enabled := true;
                 video_in_enabled := false; video_out_enabled := false;
                 vad_analyzer := vad |} ;;
  transport <- construct "LiveKitTransport"
                 {| room_url := livekit_url; token := token; params := params |} ;;
  pipeline <- construct "Pipeline"
                {| processors :=
                     [ input transport;
                       DeepgramSTT stt;
                       user_response_aggregator;
                       user context_aggregator;
                       OpenAILLM llm;
                       llm_response_aggregator;
                       assistant context_aggregator;
                       OpenAITTS tts;
                       output transport ] |} ;;
  task_params <- construct "PipelineParams"
                   {| allow_interruptions := true; enable_metrics := true |} ;;
  task <- construct "PipelineTask"
            {| task_pipeline := pipeline; task_params := task_params |} ;;
  ret {| app_context := context;
         app_context_aggregator := context_aggregator;
         app_transport := transport;
         app_pipeline := pipeline;
         app_task := task;
         app_handlers :=
           [ ("on_participant_connected", on_participant_connected task);
             ("on_participant_disconnected", on_participant_disconnected);
             ("on_room_connected", on_room_connected);
             ("on_room_disconnected", on_room_disconnected) ] |}.

(** ** The running task *)

Definition event_name (ev : TransportEvent) : string :=
  match ev with
  | ParticipantConnected _ => "on_participant_connected"
  | ParticipantDisconnected _ => "on_participant_disconnected"
  | RoomConnected _ => "on_room_connected"
  | RoomDisconnected _ => "on_room_disconnected"
  end.

Definition payload_of (ev : TransportEvent) : PyValue :=
  match ev with
  | ParticipantConnected v | ParticipantDisconnected v
  | RoomConnected v | RoomDisconnected v => v
  end.

(** Modelled from the spec: the transport's dispatch of an event, which is
    code of the pipecat library.  The spec's design notes ask for a table
    from event kind to handlers, invoked synchronously in registration
    order with the event payload.  A handler that raises stops there, with
    what it had done so far; whether the run then goes on or ends is the
    library's business and part of how the world lets the run end. *)
Fixpoint call_event_handler (table : list (string * Handler)) (ev : TransportEvent)
  : M unit :=
  match table with
  | [] => ret tt
  | (n, h) :: rest =>
      when (String.eqb n (event_name ev))
        (try_except (h (payload_of ev)) (fun _ => Some (ret tt))) ;;
      call_event_handler rest ev
  end.

(** Modelled from the spec: the turn-taking states of section 4.2. *)
Inductive TurnState := Idle | UserSpeaking | Processing | AssistantSpeaking.

(** Modelled from the spec: a finalized turn, the frame a response
    aggregator emits (section 4.3). *)
Inductive Turn :=
| UserTurn (text : string)
| AssistantTurn (text : string).

(** Modelled from the spec: what the running pipeline keeps between
    frames.  [fsm] is the turn-taking state; [turn] numbers the assistant
    turns; [cancelled] says that the current assistant turn was
    interrupted; [queued_interruption] holds an interruption that was not
    allowed to happen at once; [user_text] and [assistant_text] are the
    accumulators of the two response aggregators; [buffered] is the audio
    the output stage has received and not yet played, oldest first. *)
Record Runtime :=
  { fsm : TurnState;
    turn : nat;
    cancelled : bool;
    queued_interruption : bool;
    user_text : string;
    assistant_text : string;
    buffered : list (nat * list Byte.byte) }.

(** Modelled from the spec: the pipeline before the first frame, idle
    with nothing accumulated or buffered. *)
Definition started : Runtime :=
  {| fsm := Idle; turn := 0; cancelled := false; queued_interruption := false;
     user_text := ""; assistant_text := ""; buffered := [] |}.

(** Modelled from the spec: what a frame makes the pipeline do besides
    changing its own state. *)
Inductive Effect :=
| Dispatch (ev : TransportEvent)
| Finalize (t : Turn)
| Interrupt (turn : nat)
| Play (turn : nat) (audio : list Byte.byte).

(** Modelled from the spec: the assistant's side is at work on the
    current turn (processing or speaking, and not interrupted). *)
Definition generating (r : Runtime) : bool :=
  match fsm r with
  | Processing | AssistantSpeaking => negb (cancelled r)
  | _ => false
  end.

(** Modelled from the spec: (section 4.3 and the testable properties) a
    response aggregator emits a finalized frame for the text, nothing for
    an empty text. *)
Definition finalized (t : Turn) : list Effect :=
  match t with
  | UserTurn "" | AssistantTurn "" => []
  | _ => [Finalize t]
  end.

(** Modelled from the spec: one frame through the running pipeline
    (sections 4.2, 4.3, 4.5 and 5; the configuration surface of section 6
    for [allow_interruptions]).
    - Speech starting while idle opens the user's turn.  While the
      assistant speaks it is an interruption: when interruptions are
      allowed the interrupt frame is emitted, the audio not yet played is
      flushed, the assistant's partial aggregation is discarded, the turn
      is cancelled and the user has the floor; when they are not, the
      interruption is queued until the assistant's audio stream is done.
    - The voice-activity detector alone never finalizes a transcript.
    - For STT partials the last value wins; the final transcript closes
      the user's turn, and the next assistant turn begins.
    - LLM deltas are appended; the end of the LLM stream finalizes the
      assistant's turn.
    - Audio synthesized for the current turn is buffered for output and
      the assistant is speaking from the first piece on; audio of a turn
      that is over or cancelled is dropped.  The end of the audio stream
      hands the floor back.
    - The output stage plays the buffered audio oldest first. *)
Definition transition (params : PipelineParams) (a : Activity) (r : Runtime)
  : Runtime * list Effect :=
  match a with
  | Raised ev => (r, [Dispatch ev])
  | SpeechStarted =>
      match fsm r with
      | Idle =>
          ({| fsm := UserSpeaking; turn := turn r; cancelled := cancelled r;
              queued_interruption := queued_interruption r;
              user_text := user_text r; assistant_text := assistant_text r;
              buffered := buffered r |}, [])
      | AssistantSpeaking =>
          if allow_interruptions params then
            ({| fsm := UserSpeaking; turn := turn r; cancelled := true;
                queued_interruption := queued_interruption r;
                user_text := user_text r; assistant_text := "";
                buffered := [] |}, [Interrupt (turn r)])
          else
            ({| fsm := AssistantSpeaking; turn := turn r; cancelled := cancelled r;
                queued_interruption := true;
                user_text := user_text r; assistant_text := assistant_text r;
                buffered := buffered r |}, [])
      | _ => (r, [])
      end
  | SpeechStopped => (r, [])
  | TranscriptPartial text =>
      match fsm r with
      | UserSpeaking =>
          ({| fsm := UserSpeaking; turn := turn r; cancelled := cancelled r;
              queued_interruption := queued_interruption r;
              user_text := text; assistant_text := assistant_text r;
              buffered := buffered r |}, [])
      | _ => (r, [])
      end
  | TranscriptFinal text =>
      match fsm r with
      | UserSpeaking =>
          ({| fsm := Processing; turn := S (turn r); cancelled := false;
              queued_interruption := queued_interruption r;
              user_text := ""; assistant_text := assistant_text r;
              buffered := buffered r |}, finalized (UserTurn text))
      | _ => (r, [])
      end
  | LLMTextDelta text =>
      if generating r then
        ({| fsm := fsm r; turn := turn r; cancelled := cancelled r;
            queued_interruption := queued_interruption r;
            user_text := user_text r;
            assistant_text := assistant_text r +:+ text;
            buffered := buffered r |}, [])
      else (r, [])
  | LLMTurnComplete =>
      if generating r then
        ({| fsm := fsm r; turn := turn r; cancelled := cancelled r;
            queued_interruption := queued_interruption r;
            user_text := user_text r; assistant_text := "";
            buffered := buffered r |}, finalized (AssistantTurn (assistant_text r)))
      else (r, [])
  | SynthesizedAudio n audio =>
      if generating r && (n =? turn r)%nat then
        ({| fsm := AssistantSpeaking; turn := turn r; cancelled := cancelled r;
            queued_interruption := queued_interruption r;
            user_text := user_text r; assistant_text := assistant_text r;
            buffered := buffered r ++ [(n, audio)] |}, [])
      else (r, [])
  | SynthesisDone n =>
      match fsm r with
      | AssistantSpeaking =>
          if (n =? turn r)%nat then
            ({| fsm := if queued_interruption r then UserSpeaking else Idle;
                turn := turn r; cancelled := cancelled r;
                queued_interruption := false;
                user_text := user_text r; assistant_text := assistant_text r;
                buffered := buffered r |}, [])
          else (r, [])
      | _ => (r, [])
      end
  | Playback =>
      match buffered r with
      | [] => (r, [])
      | (n, audio) :: rest =>
          ({| fsm := fsm r; turn := turn r; cancelled := cancelled r;
              queued_interruption := queued_interruption r;
              user_text := user_text r; assistant_text := assistant_text r;
              buffered := rest |}, [Play n audio])
      end
  end.

(** Modelled from the spec: the write entry points of the context
    aggregator pair and its [snapshot], which are code of the pipecat
    library and not of this repository.  The spec (section 4.4) gives the
    pair exactly two write entry points, [appendUser] and
    [appendAssistant], each appending one message with the corresponding
    role to the shared context, and a [snapshot] returning the current
    sequence. *)
Definition append_message (c : LLMContext) (m : Message) : M unit :=
  fun s =>
    ({| heap := alter (fun ms => ms ++ [m]) (messages_ref c) (heap s);
        queue := queue s; log := log s |}, inr tt).

(** Modelled from the spec: [appendUser(text)] of the pair's user view
    (pipecat code), appending one message of role user. *)
Definition appendUser (c : LLMContext) (text : string) : M unit :=
  append_message c {| role := "user"; content := text |}.

(** Modelled from the spec: [appendAssistant(text)] of the pair's assistant
    view (pipecat code), appending one message of role assistant. *)
Definition appendAssistant (c : LLMContext) (text : string) : M unit :=
  append_message c {| role := "assistant"; content := text |}.


(** Modelled from the spec: the stage that emits a finalized turn, the
    user response aggregator for the user's and the LLM response
    aggregator for the assistant's. *)
Definition emits (stage : FrameProcessor) (t : Turn) : bool :=
  match stage, t with
  | LLMUserResponseAggregator, UserTurn _ => true
  | LLMResponseAggregator, AssistantTurn _ => true
  | _, _ => false
  end.

(** Modelled from the spec: the stages a finalized turn flows to, those
    after the stage that emits it (section 4.5: each stage forwards to the
    next in order). *)
Fixpoint downstream (stages : list FrameProcessor) (t : Turn)
  : list FrameProcessor :=
  match stages with
  | [] => []
  | stage :: rest => if emits stage t then rest else downstream rest t
  end.

(** Modelled from the spec: what a stage does with a finalized turn.  Only
    the two views of the pair were built from the context; the user view
    appends the user's turn, the assistant view the assistant's, and every
    other stage lets the frame pass. *)
Definition absorb (stage : FrameProcessor) (t : Turn) : M unit :=
  match stage, t with
  | ContextAggregatorUser c, UserTurn text => appendUser c text
  | ContextAggregatorAssistant c, AssistantTurn text => appendAssistant c text
  | _, _ => ret tt
  end.

(** Modelled from the spec: a finalized turn passing the stages in order
    (section 4.5). *)
Fixpoint forward (stages : list FrameProcessor) (t : Turn) : M unit :=
  match stages with
  | [] => ret tt
  | stage :: rest => absorb stage t ;; forward rest t
  end.

(** Modelled from the spec: carrying out what a frame asked for, with the
    pipeline of the task and the handlers registered on the transport. *)
Definition perform (task : PipelineTask) (table : list (string * Handler))
    (e : Effect) : M unit :=
  match e with
  | Dispatch ev => call_event_handler table ev
  | Finalize t =>
      forward (downstream (processors (task_pipeline task)) t) t
  | Interrupt n => emit (ControlInterrupt n)
  | Play n audio => emit (SendAudio n audio)
  end.

(** Modelled from the spec: the effects of one frame, in order. *)
Fixpoint perform_all (task : PipelineTask) (table : list (string * Handler))
    (es : list Effect) : M unit :=
  match es with
  | [] => ret tt
  | e :: rest => perform task table e ;; perform_all task table rest
  end.

(** Modelled from the spec: the task at work on what reaches it, one frame
    after the other. *)
Fixpoint play (task : PipelineTask) (table : list (string * Handler))
    (acts : list Activity) (r : Runtime) : M Runtime :=
  match acts with
  | [] => ret r
  | a :: rest =>
      let (r', es) := transition (task_params task) a r in
      perform_all task table es ;;
      play task table rest r'
  end.

(** [await runner.run(task)] (line 210).  The runner is pipecat code: the
    task works on what reaches it ([play], modelled from the spec), and
    the call returns or raises as the world says. *)
Definition run (w : World) (app : App) : M unit :=
  emit RunnerRun ;;
  play (app_task app) (app_handlers app) (activity w) started ;;
  match run_outcome w with
  | Some e => raise e
  | None => ret tt
  end.

(** [await transport.cleanup()], which returns or raises as the world
    says. *)
Definition cleanup (w : World) (t : LiveKitTransport) : M unit :=
  emit TransportCleanup ;;
  match cleanup_outcome w with
  | Some e => raise e
  | None => ret tt
  end.

Definition main (w : World) : M unit :=
  app <- setup w ;;
  runner <- construct "PipelineRunner" tt ;;
  try_finally
    (try_except (run w app)
       (fun e =>
          match e with
          | KeyboardInterrupt =>
              Some (print (String "010"%char "Shutting down..."))
          | _ => None
          end))
    (cleanup w (app_transport app)).

(** * Vocabulary of the statements *)

(** ** Worlds used to exercise the theorems *)

Definition full_env : gmap string string :=
  <["LIVEKIT_URL" := "wss://voice.example.test"]>
    (<["LIVEKIT_API_KEY" := "key"]>
       (<["LIVEKIT_API_SECRET" := "secret"]>
          (<["OPENAI_API_KEY" := "sk-openai"]>
             (<["DEEPGRAM_API_KEY" := "dg"]> ∅)))).

(** A stand-in for [to_jwt] that shows who the token was minted for. *)
Definition show_identity (a : AccessToken) : string + string :=
  inr ("jwt:" +:+ py_str (at_identity a)).

(** A stand-in for [to_jwt] that, like the one of the livekit package,
    refuses to mint a token for joining a room when the identity or the
    room is empty. *)
Definition validating (a : AccessToken) : string + string :=
  match at_identity a, at_grants a with
  | Some i, Some g =>
      if room_join g
         && (String.eqb i "" || negb (truthy (room g)))
      then inl "identity and room must be set when joining a room"
      else inr ("jwt:" +:+ i +:+ "@" +:+ py_str (room g))
  | _, _ => inl "identity and room must be set when joining a room"
  end.

Definition quiet_world : World :=
  {| environ := full_env;
     livekit_api := Some show_identity;
     activity := [];
     run_outcome := None;
     cleanup_outcome := None |}.

(** ** Start-up checks *)

Definition required_variables : list string :=
  ["LIVEKIT_URL"; "LIVEKIT_API_KEY"; "LIVEKIT_API_SECRET"; "OPENAI_API_KEY"].

(** The test of line 48. *)
Definition required_present (w : World) : bool :=
  all (getenv (environ w) <$> required_variables).

Definition missing_required : Exception :=
  ValueError
    ("Missing required environment variables: "
     +:+ "LIVEKIT_URL, LIVEKIT_API_KEY, LIVEKIT_API_SECRET, OPENAI_API_KEY").

Definition missing_deepgram : Exception :=
  ValueError "DEEPGRAM_API_KEY is required for STT functionality".

Definition missing_token : Exception :=
  ValueError
    ("LIVEKIT_TOKEN required if livekit package not installed. "
     +:+ "Install with: pip install livekit").

Definition deepgram_warning : list string :=
  ["Warning: DEEPGRAM_API_KEY not set. STT will not work without it.";
   "Get your API key from: https://console.deepgram.com/"].

Definition connecting_lines (w : World) : list string :=
  ["Connecting to LiveKit room: "
     +:+ py_str (getenv_default (environ w) "LIVEKIT_ROOM" "default-room");
   "LiveKit URL: " +:+ py_str (getenv (environ w) "LIVEKIT_URL")].

Definition printed (s : Sys) (lines : list string) : Sys :=
  {| heap := heap s; queue := queue s; log := log s ++ (Print <$> lines) |}.

Definition caller : PyValue := PyObject {[ "identity" := "caller" ]}.

Definition no_openai_key : World :=
  {| environ := delete "OPENAI_API_KEY" full_env;
     livekit_api := Some show_identity;
     activity := [Raised (ParticipantConnected caller)];
     run_outcome := None;
     cleanup_outcome := None |}.

(** ** The Deepgram key *)

Definition bare_world : World :=
  {| environ := ∅;
     livekit_api := Some show_identity;
     activity := [];
     run_outcome := None;
     cleanup_outcome := None |}.

Definition no_deepgram_key : World :=
  {| environ := delete "DEEPGRAM_API_KEY" full_env;
     livekit_api := Some show_identity;
     activity := [];
     run_outcome := None;
     cleanup_outcome := None |}.

(** ** The room token *)

(** The access token lines 109 to 118 describe, read off the environment:
    the API key and secret as they stand, the participant name and the
    room name with their defaults when unset, the display name and the
    three grants. *)
Definition room_access (w : World) : AccessToken :=
  {| at_api_key := environ w !! "LIVEKIT_API_KEY";
     at_api_secret := environ w !! "LIVEKIT_API_SECRET";
     at_identity :=
       Some match environ w !! "LIVEKIT_PARTICIPANT_NAME" with
            | Some participant_name => participant_name
            | None => "assistant"
            end;
     at_name := Some "AI Assistant";
     at_grants :=
       Some {| room_join := true;
               room := Some match environ w !! "LIVEKIT_ROOM" with
                            | Some room_name => room_name
                            | None => "default-room"
                            end;
               can_publish := true;
               can_subscribe := true |} |}.

(** What has been logged when the fallback finds no token: the two
    connection lines and the seven constructor calls of lines 71 to 102. *)
Definition before_token (w : World) : list Event :=
  (Print <$> connecting_lines w)
  ++ (Construct <$>
        ["DeepgramSTTService"; "OpenAILLMService"; "OpenAITTSService";
         "LLMContext"; "LLMContextAggregatorPair";
         "LLMUserResponseAggregator"; "LLMResponseAggregator"]).

(** What has been logged when [to_jwt] refuses the access token. *)
Definition before_jwt (w : World) : list Event :=
  before_token w ++ [Construct "AccessToken"; Construct "VideoGrants"].

Definition no_livekit_package : World :=
  {| environ := <["LIVEKIT_TOKEN" := "room-token"]> full_env;
     livekit_api := None;
     activity := [];
     run_outcome := None;
     cleanup_outcome := None |}.

(** The room name is set, and empty. *)
Definition empty_room : World :=
  {| environ := <["LIVEKIT_ROOM" := ""]> full_env;
     livekit_api := Some validating;
     activity := [];
     run_outcome := None;
     cleanup_outcome := None |}.

(** ** Shutdown *)

Definition is_cleanup (e : Event) : bool :=
  match e with
  | TransportCleanup => true
  | _ => false
  end.

(** How many times [transport.cleanup()] was called. *)
Definition cleanup_calls (l : list Event) : nat :=
  length (List.filter is_cleanup l).

(** How [main] ends once the task has been run: an exception of the
    clean-up wins; otherwise a [KeyboardInterrupt] of the run is swallowed
    and any other exception of the run is re-raised. *)
Definition exit_of (w : World) : Exception + unit :=
  match cleanup_outcome w with
  | Some e => inl e
  | None =>
      match run_outcome w with
      | Some KeyboardInterrupt | None => inr tt
      | Some e => inl e
      end
  end.

Definition shutting_down : Event := Print (String "010"%char "Shutting down...").

Definition interrupted_world : World :=
  {| environ := full_env;
     livekit_api := Some show_identity;
     activity := [Raised (RoomConnected (PyObject {[ "name" := "default-room" ]}));
                  Raised (ParticipantConnected caller)];
     run_outcome := Some KeyboardInterrupt;
     cleanup_outcome := None |}.

(** ** Start-up as a whole *)

Definition system_message : Message :=
  {| role := "system"; content := system_prompt |}.

(** The eight variables [main] reads. *)
Definition read_variables : list string :=
  required_variables
  ++ ["DEEPGRAM_API_KEY"; "LIVEKIT_ROOM"; "LIVEKIT_PARTICIPANT_NAME";
      "LIVEKIT_TOKEN"].

(** The same world under another environment. *)
Definition with_environ (w : World) (env : gmap string string) : World :=
  {| environ := env;
     livekit_api := livekit_api w;
     activity := activity w;
     run_outcome := run_outcome w;
     cleanup_outcome := cleanup_outcome w |}.


(** The constructor calls of a start-up that succeeds, in source order;
    the access token and its grants are built only when the livekit
    package could be imported. *)
Definition startup_calls (w : World) : list string :=
  ["DeepgramSTTService"; "OpenAILLMService"; "OpenAITTSService";
   "LLMContext"; "LLMContextAggregatorPair";
   "LLMUserResponseAggregator"; "LLMResponseAggregator"]
  ++ match livekit_api w with
     | Some _ => ["AccessToken"; "VideoGrants"]
     | None => []
     end
  ++ ["VADParams"; "SileroVADAnalyzer"; "LiveKitParams"; "LiveKitTransport";
      "Pipeline"; "PipelineParams"; "PipelineTask"].

Definition startup_log (w : World) : list Event :=
  (Print <$> connecting_lines w) ++ (Construct <$> startup_calls w).

(** ** A run as a whole *)

(** The parameters the script gives its task. *)
Definition script_params : PipelineParams :=
  {| allow_interruptions := true; enable_metrics := true |}.

(** The effects of a sequence of frames, and the state it leaves. *)
Fixpoint trace (params : PipelineParams) (acts : list Activity) (r : Runtime)
  : list Effect :=
  match acts with
  | [] => []
  | a :: rest =>
      (transition params a r).2 ++ trace params rest (transition params a r).1
  end.

Fixpoint final (params : PipelineParams) (acts : list Activity) (r : Runtime)
  : Runtime :=
  match acts with
  | [] => r
  | a :: rest => final params rest (transition params a r).1
  end.

(** The attribute the handler of an event reads from its payload. *)
Definition attribute_read (ev : TransportEvent) : string :=
  match ev with
  | ParticipantConnected _ | ParticipantDisconnected _ => "identity"
  | RoomConnected _ | RoomDisconnected _ => "name"
  end.

Definition attribute (v : PyValue) (attr : string) : option string :=
  match v with
  | PyObject attrs => attrs !! attr
  | PyStr _ => None
  end.

(** The line the handler of an event prints, given the attribute. *)
Definition handler_line (ev : TransportEvent) (x : string) : string :=
  match ev with
  | ParticipantConnected _ => "Participant connected: " +:+ x
  | ParticipantDisconnected _ => "Participant disconnected: " +:+ x
  | RoomConnected _ => "Bot connected to room: " +:+ x
  | RoomDisconnected _ => "Bot disconnected from room: " +:+ x
  end.

(** What the handlers log and queue for an event: nothing when the payload
    lacks the attribute the handler reads first. *)
Definition handler_log (ev : TransportEvent) : list Event :=
  match attribute (payload_of ev) (attribute_read ev) with
  | Some x =>
      cons (Print (handler_line ev x))
        match ev with
        | ParticipantConnected _ => [QueueFrames [LLMRunFrame]]
        | _ => []
        end
  | None => []
  end.

Definition handler_frames (ev : TransportEvent) : list Frame :=
  match ev, attribute (payload_of ev) (attribute_read ev) with
  | ParticipantConnected _, Some _ => [LLMRunFrame]
  | _, _ => []
  end.

Definition turn_message (t : Turn) : Message :=
  match t with
  | UserTurn text => {| role := "user"; content := text |}
  | AssistantTurn text => {| role := "assistant"; content := text |}
  end.

(** What an effect logs, queues and appends to the context. *)
Definition effect_log (e : Effect) : list Event :=
  match e with
  | Dispatch ev => handler_log ev
  | Finalize _ => []
  | Interrupt n => [ControlInterrupt n]
  | Play n audio => [SendAudio n audio]
  end.

Definition effect_frames (e : Effect) : list Frame :=
  match e with
  | Dispatch ev => handler_frames ev
  | _ => []
  end.

Definition effect_messages (e : Effect) : list Message :=
  match e with
  | Finalize t => [turn_message t]
  | _ => []
  end.

(** The state after one effect, with the context at [c]. *)
Definition applied (c : LLMContext) (e : Effect) (s : Sys) : Sys :=
  {| heap := match e with
             | Finalize t =>
                 alter (fun ms => ms ++ [turn_message t]) (messages_ref c) (heap s)
             | _ => heap s
             end;
     queue := queue s ++ effect_frames e;
     log := log s ++ effect_log e |}.

Definition effected (c : LLMContext) (es : list Effect) (s : Sys) : Sys :=
  foldl (flip (applied c)) s es.

(** The effects of the run of a world. *)
Definition effects (w : World) : list Effect :=
  trace script_params (activity w) started.

Definition interrupted (w : World) : bool :=
  match run_outcome w with
  | Some KeyboardInterrupt => true
  | _ => false
  end.

(** The state when the runner has been created and started. *)
Definition opened (s1 : Sys) : Sys :=
  {| heap := heap s1; queue := queue s1;
     log := log s1 ++ [Construct "PipelineRunner"; RunnerRun] |}.

(** The state when [main] is over. *)
Definition closed (w : World) (s2 : Sys) : Sys :=
  {| heap := heap s2; queue := queue s2;
     log := log s2
            ++ (if interrupted w then [shutting_down] else [])
            ++ [TransportCleanup] |}.

(** The handler table the four decorators of lines 185 to 205 build. *)
Definition registered (task : PipelineTask) : list (string * Handler) :=
  [ ("on_participant_connected", on_participant_connected task);
    ("on_participant_disconnected", on_participant_disconnected);
    ("on_room_connected", on_room_connected);
    ("on_room_disconnected", on_room_disconnected) ].

(** What the runtime needs to know of the application [main] built. *)
Definition assembled (app : App) : Prop :=
  app_handlers app = registered (app_task app)
  /\ task_params (app_task app) = script_params
  /\ exists transport stt llm tts,
       processors (task_pipeline (app_task app))
       = [ TransportInput transport; DeepgramSTT stt;
           LLMUserResponseAggregator; ContextAggregatorUser (app_context app);
           OpenAILLM llm; LLMResponseAggregator;
           ContextAggregatorAssistant (app_context app); OpenAITTS tts;
           TransportOutput transport ].

(** ** Interruption *)

(** No audio of assistant turn [t] is sent in [l]. *)
Definition silent (t : nat) (l : list Event) : Prop :=
  forall audio, SendAudio t audio ∉ l.

(** After each interrupt frame in [l], no audio of the interrupted turn is
    sent. *)
Fixpoint interrupts_respected (l : list Event) : Prop :=
  match l with
  | [] => True
  | ControlInterrupt t :: rest => silent t rest /\ interrupts_respected rest
  | _ :: rest => interrupts_respected rest
  end.

(** Turn [t] was interrupted: nothing of it is buffered for output, and it
    is the current turn, cancelled, or a past one. *)
Definition interrupted_turn (t : nat) (r : Runtime) : Prop :=
  Forall (fun chunk => chunk.1 ≠ t) (buffered r)
  /\ ((turn r = t /\ cancelled r = true) \/ t < turn r).

(** ** The conversation context *)



(** The user cuts in after the first piece of audio was played: the second
    piece, already buffered, and a third one that arrives late, are never
    played. *)
Definition cut_in : list Activity :=
  [ SpeechStarted; TranscriptFinal "tell me a story";
    LLMTextDelta "Once upon a time"; LLMTurnComplete;
    SynthesizedAudio 1 [Byte.x01]; SynthesizedAudio 1 [Byte.x02];
    Playback;
    SpeechStarted;
    SynthesizedAudio 1 [Byte.x03]; Playback;
    TranscriptFinal "stop"; LLMTextDelta "All right."; LLMTurnComplete;
    SynthesizedAudio 2 [Byte.x04]; SynthesisDone 2; Playback ].

(** ** More worlds *)

Definition empty_url : World :=
  {| environ := <["LIVEKIT_URL" := ""]> full_env;
     livekit_api := Some show_identity;
     activity := [];
     run_outcome := None;
     cleanup_outcome := None |}.

Definition empty_deepgram_key : World :=
  {| environ := <["DEEPGRAM_API_KEY" := ""]> full_env;
     livekit_api := Some show_identity;
     activity := [];
     run_outcome := None;
     cleanup_outcome := None |}.

(** Two participants join as objects with an identity, a third one is
    announced by its id alone. *)
Definition two_callers : World :=
  {| environ := full_env;
     livekit_api := Some show_identity;
     activity :=
       [ Raised (RoomConnected (PyObject {[ "name" := "default-room" ]}));
         Raised (ParticipantConnected (PyObject {[ "identity" := "ann" ]}));
         Raised (ParticipantDisconnected (PyObject {[ "identity" := "ann" ]}));
         Raised (ParticipantConnected (PyStr "PA_bob"));
         Raised (ParticipantConnected (PyObject {[ "identity" := "carl" ]})) ];
     run_outcome := Some (OtherException "ConnectionError");
     cleanup_outcome := None |}.

(** The transport announces a participant by its id, a [str]. *)
Definition announced_by_id : World :=
  {| environ := full_env;
     livekit_api := Some show_identity;
     activity := [Raised (ParticipantConnected (PyStr "PA_7Yk2"))];
     run_outcome := None;
     cleanup_outcome := None |}.

Definition conversation (acts : list Activity) : World :=
  {| environ := full_env;
     livekit_api := Some show_identity;
     activity := acts;
     run_outcome := None;
     cleanup_outcome := None |}.

(** How many participant-connected events came with a payload that has an
    [identity]. *)
Definition connections (acts : list Activity) : nat :=
  length (List.filter
            (fun a =>
               match a with
               | Raised (ParticipantConnected v) =>
                   bool_decide (is_Some (attribute v "identity"))
               | _ => false
               end) acts).

(** Events the handlers and the start-up log: prints, constructor calls and
    [queue_frames] calls. *)
Definition script_call (e : Event) : Prop :=
  match e with
  | Print _ | Construct _ | QueueFrames _ | RunnerRun | TransportCleanup => True
  | ControlInterrupt _ | SendAudio _ _ => False
  end.

(** * Proofs *)

(** ** Symbolic execution of [setup] *)

Ltac abstract_env w :=
  generalize (getenv (environ w) "LIVEKIT_URL")
    (getenv (environ w) "LIVEKIT_API_KEY")
    (getenv (environ w) "LIVEKIT_API_SECRET")
    (getenv (environ w) "OPENAI_API_KEY")
    (getenv (environ w) "DEEPGRAM_API_KEY")
    (getenv (environ w) "LIVEKIT_TOKEN")
    (getenv_default (environ w) "LIVEKIT_ROOM" "default-room")
    (getenv_default (environ w) "LIVEKIT_PARTICIPANT_NAME" "assistant");
  intros url key secret openai deepgram tok room_name participant_name.

(** Splits on every test [setup] makes. *)
Ltac split_tests :=
  repeat match goal with
    | |- context [all ?l] => destruct (all l)
    | |- context [truthy ?x] => destruct (truthy x)
    | |- context [livekit_api ?w] => destruct (livekit_api w)
    end.

(** Splits on what [to_jwt] answers. *)
Ltac split_jwt :=
  repeat match goal with
    | |- context [match ?to_jwt ?access with inl _ => _ | inr _ => _ end] =>
        destruct (to_jwt access); cbn -[fresh dom insert]
    end.

(** Keeps the runs of [setup] that return. *)
Ltac setup_returns H :=
  unfold setup, import_livekit in H;
  match type of H with
  | context [environ ?w] => revert H; abstract_env w
  end;
  split_tests;
  unfold try_except, mint, bind; cbn -[fresh dom insert]; try discriminate;
  split_jwt; try discriminate;
  intros H; inversion H; subst; clear H.

(** ** The pipeline *)

(** C1: whenever [main] gets as far as building the pipeline, its stages
    are, in this order and with nothing else: the transport input, the STT
    service, the user response aggregator, the user side of the context
    aggregator, the LLM, the LLM response aggregator, the assistant side of
    the context aggregator, the TTS service and the transport output; the
    task runs that very pipeline. *)
Theorem pipeline_order (w : World) (s s' : Sys) (app : App) :
  setup w s = (s', inr app) ->
  processors (app_pipeline app) =
    [ input (app_transport app);
      DeepgramSTT {| stt_api_key := getenv (environ w) "DEEPGRAM_API_KEY" |};
      LLMUserResponseAggregator;
      user (app_context_aggregator app);
      OpenAILLM {| llm_api_key := getenv (environ w) "OPENAI_API_KEY";
                   llm_model := "gpt-4o-mini" |};
      LLMResponseAggregator;
      assistant (app_context_aggregator app);
      OpenAITTS {| tts_api_key := getenv (environ w) "OPENAI_API_KEY";
                   tts_voice := "alloy"; tts_model := "tts-1" |};
      output (app_transport app) ]
  /\ task_pipeline (app_task app) = app_pipeline app.
Proof.
  intros H. setup_returns H; split; reflexivity.
Qed.

Lemma pipeline_order_witness :
  exists s' app,
    setup quiet_world initial = (s', inr app)
    /\ length (processors (app_pipeline app)) = 9
    /\ processors (app_pipeline app) !! 1
       = Some (DeepgramSTT {| stt_api_key := Some "dg" |}).
Proof.
  eexists; eexists. split; [vm_compute; reflexivity|].
  edestruct (pipeline_order quiet_world initial) as [Hp _];
    [vm_compute; reflexivity|].
  rewrite Hp. split; reflexivity.
Defined.

(** ** Start-up checks *)

Lemma printed_nil (s : Sys) : printed s [] = s.
Proof. destruct s. unfold printed. cbn. by rewrite app_nil_r. Qed.

Lemma unset_is_falsy (w : World) (k : string) :
  environ w !! k = None -> truthy (getenv (environ w) k) = false.
Proof. unfold getenv. by intros ->. Qed.

Lemma required_absent (w : World) (k : string) :
  k ∈ required_variables -> environ w !! k = None -> required_present w = false.
Proof.
  intros Hk Hnone. apply unset_is_falsy in Hnone.
  unfold required_present, all. apply not_true_is_false. intros Hall.
  apply forallb_forall with (x := getenv (environ w) k) in Hall; [congruence|].
  apply in_map, list_elem_of_In, Hk.
Qed.

(** An exception of [setup] leaves [main] at once. *)
Lemma main_setup_raises (w : World) (s s' : Sys) (e : Exception) :
  setup w s = (s', inl e) -> main w s = (s', inl e).
Proof. intros H. unfold main, bind. by rewrite H. Qed.

Lemma setup_missing_required (w : World) (s : Sys) :
  required_present w = false -> setup w s = (s, inl missing_required).
Proof.
  unfold required_present, required_variables, setup. cbn [fmap list_fmap].
  intros ->. reflexivity.
Qed.

Lemma setup_missing_deepgram (w : World) (s : Sys) :
  required_present w = true ->
  truthy (getenv (environ w) "DEEPGRAM_API_KEY") = false ->
  setup w s
  = (printed s (deepgram_warning ++ connecting_lines w), inl missing_deepgram).
Proof.
  unfold required_present, required_variables, setup. cbn [fmap list_fmap].
  intros -> ->. unfold printed, connecting_lines. cbn -[getenv getenv_default py_str].
  by rewrite <- !app_assoc.
Qed.

(** C2: when one of the four variables tested on line 48 is unset, [main]
    raises the [ValueError] of lines 49-52 and the state is untouched:
    nothing was printed or constructed, no list was allocated, the runner
    never ran and no frame was queued. *)
Theorem missing_credential_is_fatal (w : World) (s : Sys) (k : string) :
  k ∈ required_variables ->
  environ w !! k = None ->
  main w s = (s, inl missing_required).
Proof.
  intros Hk Hnone.
  apply main_setup_raises, setup_missing_required.
  by apply required_absent with k.
Qed.

Lemma missing_credential_is_fatal_witness :
  main no_openai_key initial = (initial, inl missing_required).
Proof.
  apply (missing_credential_is_fatal no_openai_key initial "OPENAI_API_KEY").
  - unfold required_variables. set_solver.
  - reflexivity.
Defined.

(** ** The Deepgram key *)

(** C9 as stated fails in the empty environment: the Deepgram key is
    unset, yet [main] stops on line 49 before the warning of line 56 is
    printed. *)
Lemma deepgram_warning_not_always_printed :
  environ bare_world !! "DEEPGRAM_API_KEY" = None
  /\ main bare_world initial = (initial, inl missing_required)
  /\ forall line, Print line ∉ log (main bare_world initial).1.
Proof.
  split; [reflexivity|]. split; [vm_compute; reflexivity|].
  intros line Hin. vm_compute in Hin. inversion Hin.
Qed.

(** C9, amended: when the Deepgram key is unset [main] always ends with a
    [ValueError], having printed some lines and done nothing else (no
    constructor call, no runner, no frame).  When the four required
    variables are present, the lines are the two-line warning followed by
    the two connection lines, and the error is the one of line 69; when
    one of them is missing, nothing is printed and the error is the one of
    line 49. *)
Theorem deepgram_key_is_required (w : World) (s : Sys) :
  environ w !! "DEEPGRAM_API_KEY" = None ->
  (exists lines msg, main w s = (printed s lines, inl (ValueError msg)))
  /\ (required_present w = true ->
      main w s
      = (printed s (deepgram_warning ++ connecting_lines w), inl missing_deepgram))
  /\ (required_present w = false -> main w s = (s, inl missing_required)).
Proof.
  intros Hnone. apply unset_is_falsy in Hnone.
  destruct (required_present w) eqn:Hreq.
  - pose proof (setup_missing_deepgram w s Hreq Hnone) as Hrun.
    apply main_setup_raises in Hrun. split; [|done].
    by eexists _, _.
  - pose proof (setup_missing_required w s Hreq) as Hrun.
    apply main_setup_raises in Hrun. split; [|done].
    exists [], ("Missing required environment variables: "
                +:+ "LIVEKIT_URL, LIVEKIT_API_KEY, LIVEKIT_API_SECRET, OPENAI_API_KEY").
    by rewrite printed_nil.
Qed.

Lemma deepgram_key_is_required_witness :
  main no_deepgram_key initial
  = (printed initial
       (deepgram_warning
        ++ ["Connecting to LiveKit room: default-room";
            "LiveKit URL: wss://voice.example.test"]),
     inl missing_deepgram).
Proof.
  destruct (deepgram_key_is_required no_deepgram_key initial) as (_ & Hwarn & _);
    [reflexivity|].
  rewrite Hwarn; [reflexivity | vm_compute; reflexivity].
Defined.

(** ** Truthiness *)

Lemma truthy_Some (v : option string) :
  truthy v = true <-> exists k, v = Some k /\ k ≠ "".
Proof.
  destruct v as [k|]; cbn.
  - rewrite negb_true_iff, String.eqb_neq. split.
    + intros Hk. by exists k.
    + by intros (k' & [= ->] & Hk).
  - split; [done|]. by intros (k & ? & _).
Qed.

Lemma empty_is_falsy (w : World) (k : string) :
  environ w !! k = Some "" -> truthy (getenv (environ w) k) = false.
Proof. unfold getenv. by intros ->. Qed.

Lemma falsy_required (w : World) (k : string) :
  k ∈ required_variables ->
  truthy (getenv (environ w) k) = false ->
  required_present w = false.
Proof.
  intros Hk Hfalse.
  unfold required_present, all. apply not_true_is_false. intros Hall.
  apply forallb_forall with (x := getenv (environ w) k) in Hall; [congruence|].
  apply in_map, list_elem_of_In, Hk.
Qed.

Lemma required_present_true (w : World) :
  required_present w = true ->
  forall k, k ∈ required_variables -> truthy (getenv (environ w) k) = true.
Proof.
  intros Hreq k Hk. destruct (truthy (getenv (environ w) k)) eqn:Hfalse; [done|].
  by rewrite (falsy_required w k Hk Hfalse) in Hreq.
Qed.

(** X1: a required variable that is set to the empty string counts as
    missing: [main] raises the error of line 49 with the state untouched. *)
Theorem empty_credential_is_fatal (w : World) (s : Sys) (k : string) :
  k ∈ required_variables ->
  environ w !! k = Some "" ->
  main w s = (s, inl missing_required).
Proof.
  intros Hk Hempty.
  apply main_setup_raises, setup_missing_required.
  apply falsy_required with k; [done|]. by apply empty_is_falsy.
Qed.

Lemma empty_credential_is_fatal_witness :
  main empty_url initial = (initial, inl missing_required).
Proof.
  apply (empty_credential_is_fatal empty_url initial "LIVEKIT_URL").
  - unfold required_variables. set_solver.
  - reflexivity.
Defined.

(** X2: an empty Deepgram key is treated like an unset one: with the four
    required variables present, [main] prints the warning and the
    connection lines and raises the error of line 69; no service is
    built. *)
Theorem empty_deepgram_key_is_rejected (w : World) (s : Sys) :
  required_present w = true ->
  environ w !! "DEEPGRAM_API_KEY" = Some "" ->
  main w s
  = (printed s (deepgram_warning ++ connecting_lines w), inl missing_deepgram).
Proof.
  intros Hreq Hempty.
  apply main_setup_raises, setup_missing_deepgram; [done|].
  by apply empty_is_falsy.
Qed.

Lemma empty_deepgram_key_is_rejected_witness :
  main empty_deepgram_key initial
  = (printed initial
       (deepgram_warning
        ++ ["Connecting to LiveKit room: default-room";
            "LiveKit URL: wss://voice.example.test"]),
     inl missing_deepgram).
Proof.
  rewrite (empty_deepgram_key_is_rejected empty_deepgram_key initial);
    [reflexivity | vm_compute; reflexivity | reflexivity].
Defined.

(** ** The room token *)

(** The access token [setup] hands to [to_jwt]. *)
Lemma setup_access (w : World) :
  with_grants
    {| room_join := true;
       room := getenv_default (environ w) "LIVEKIT_ROOM" "default-room";
       can_publish := true; can_subscribe := true |}
    (with_name "AI Assistant"
       (with_identity
          (getenv_default (environ w) "LIVEKIT_PARTICIPANT_NAME" "assistant")
          (new_AccessToken (getenv (environ w) "LIVEKIT_API_KEY")
             (getenv (environ w) "LIVEKIT_API_SECRET"))))
  = room_access w.
Proof.
  unfold room_access, getenv, getenv_default, with_grants, with_name,
    with_identity, new_AccessToken. cbn.
  by destruct (environ w !! "LIVEKIT_ROOM"),
    (environ w !! "LIVEKIT_PARTICIPANT_NAME").
Qed.

Lemma setup_missing_token (w : World) (s : Sys) :
  required_present w = true ->
  truthy (getenv (environ w) "DEEPGRAM_API_KEY") = true ->
  livekit_api w = None ->
  truthy (getenv (environ w) "LIVEKIT_TOKEN") = false ->
  setup w s
  = ({| heap := <[fresh (dom (heap s)) := [system_message]]> (heap s);
        queue := queue s;
        log := log s ++ before_token w |},
     inl missing_token).
Proof.
  unfold required_present, required_variables.
  cbn [fmap list_fmap]. intros Hreq Hdg Hapi Htok.
  unfold setup, import_livekit. rewrite Hreq, Hdg, Htok, Hapi.
  unfold before_token, connecting_lines.
  cbn -[fresh dom insert getenv getenv_default py_str].
  by rewrite <- !app_assoc.
Qed.

(** A [ValueError] of [to_jwt] is not caught by [except ImportError]. *)
Lemma setup_refused (w : World) (s : Sys)
    (to_jwt : AccessToken -> string + string) (msg : string) :
  required_present w = true ->
  truthy (getenv (environ w) "DEEPGRAM_API_KEY") = true ->
  livekit_api w = Some to_jwt ->
  to_jwt (room_access w) = inl msg ->
  setup w s
  = ({| heap := <[fresh (dom (heap s)) := [system_message]]> (heap s);
        queue := queue s;
        log := log s ++ before_jwt w |},
     inl (ValueError msg)).
Proof.
  unfold required_present, required_variables.
  cbn [fmap list_fmap]. intros Hreq Hdg Hapi Hjwt.
  rewrite <- setup_access in Hjwt.
  unfold setup, import_livekit. rewrite Hreq, Hdg, Hapi.
  unfold try_except, mint, bind.
  cbn -[fresh dom insert getenv getenv_default py_str].
  rewrite Hjwt.
  unfold before_jwt, before_token, connecting_lines.
  cbn -[fresh dom insert getenv getenv_default py_str].
  by rewrite <- !app_assoc.
Qed.

(** The checks a start-up that returns has passed. *)
Lemma setup_returns_checks (w : World) (s s1 : Sys) (app : App) :
  setup w s = (s1, inr app) ->
  required_present w = true
  /\ truthy (getenv (environ w) "DEEPGRAM_API_KEY") = true.
Proof.
  intros H.
  destruct (required_present w) eqn:Hreq;
    [|by rewrite setup_missing_required in H].
  destruct (truthy (getenv (environ w) "DEEPGRAM_API_KEY")) eqn:Hdg;
    [|by rewrite setup_missing_deepgram in H].
  done.
Qed.

(** Where the token of a start-up that returns comes from. *)
Lemma setup_returns_token (w : World) (s s1 : Sys) (app : App) :
  setup w s = (s1, inr app) ->
  match livekit_api w with
  | Some to_jwt =>
      exists jwt, to_jwt (room_access w) = inr jwt
                  /\ token (app_transport app) = Some jwt
  | None =>
      truthy (environ w !! "LIVEKIT_TOKEN") = true
      /\ token (app_transport app) = environ w !! "LIVEKIT_TOKEN"
  end.
Proof.
  intros H. destruct (setup_returns_checks _ _ _ _ H) as [Hreq Hdg].
  unfold required_present, required_variables in Hreq.
  cbn [fmap list_fmap] in Hreq.
  rewrite <- setup_access.
  unfold setup, import_livekit in H. rewrite Hreq, Hdg in H.
  destruct (livekit_api w) as [to_jwt|].
  - unfold try_except, mint, bind in H.
    cbn -[fresh dom insert getenv getenv_default py_str] in H.
    destruct (to_jwt _) as [msg|jwt];
      cbn -[fresh dom insert getenv getenv_default py_str] in H;
      [discriminate|].
    exists jwt. split; [done|]. by inversion H.
  - change (environ w !! "LIVEKIT_TOKEN")
      with (getenv (environ w) "LIVEKIT_TOKEN").
    destruct (truthy (getenv (environ w) "LIVEKIT_TOKEN")) eqn:Htok;
      cbn -[fresh dom insert getenv getenv_default py_str] in H;
      [|discriminate].
    split; [done|]. by inversion H.
Qed.

(** C10, amended: once the five keys are present, the access token handed
    to [to_jwt] when [from livekit import api] succeeds carries the
    configured identity and the grants [room_join], [can_publish] and
    [can_subscribe] on the configured room (the values of
    [LIVEKIT_PARTICIPANT_NAME] and [LIVEKIT_ROOM], or their defaults when
    unset).  The JWT [to_jwt] returns is the token of the transport
    whenever the transport gets built; a [ValueError] of [to_jwt] is not
    caught and ends [main] before the transport is built.  When the import
    fails the token of the transport is the value of [LIVEKIT_TOKEN] as it
    stands, and [main] raises the [ValueError] of lines 123 to 126 before
    the transport is built when that variable is unset (or empty). *)
Theorem room_token (w : World) (s : Sys) :
  required_present w = true ->
  truthy (getenv (environ w) "DEEPGRAM_API_KEY") = true ->
  match livekit_api w with
  | Some to_jwt =>
      match to_jwt (room_access w) with
      | inr jwt =>
          forall s' app,
            setup w s = (s', inr app) ->
            token (app_transport app) = Some jwt
      | inl msg =>
          exists s', main w s = (s', inl (ValueError msg))
                     /\ log s' = log s ++ before_jwt w
      end
  | None =>
      match environ w !! "LIVEKIT_TOKEN" with
      | Some t =>
          if String.eqb t "" then
            exists s', main w s = (s', inl missing_token)
                       /\ log s' = log s ++ before_token w
          else
            forall s' app,
              setup w s = (s', inr app) ->
              token (app_transport app) = Some t
      | None =>
          exists s', main w s = (s', inl missing_token)
                     /\ log s' = log s ++ before_token w
      end
  end.
Proof.
  intros Hreq Hdg.
  assert (Hfail : livekit_api w = None ->
                  truthy (getenv (environ w) "LIVEKIT_TOKEN") = false ->
                  exists s', main w s = (s', inl missing_token)
                             /\ log s' = log s ++ before_token w).
  { intros Hapi Htok. eexists.
    split; [by apply main_setup_raises, setup_missing_token | reflexivity]. }
  destruct (livekit_api w) as [to_jwt|] eqn:Hapi.
  - destruct (to_jwt (room_access w)) as [msg|jwt] eqn:Hjwt.
    + eexists.
      split; [by eapply main_setup_raises, setup_refused | reflexivity].
    + intros s' app Hrun.
      pose proof (setup_returns_token _ _ _ _ Hrun) as Htoken.
      rewrite Hapi in Htoken. destruct Htoken as (jwt' & Hjwt' & ->).
      congruence.
  - destruct (environ w !! "LIVEKIT_TOKEN") as [t|] eqn:Henv.
    + destruct (String.eqb t "") eqn:Hempty.
      * apply Hfail; [done|]. unfold getenv. rewrite Henv. cbn.
        by rewrite Hempty.
      * intros s' app Hrun.
        pose proof (setup_returns_token _ _ _ _ Hrun) as Htoken.
        rewrite Hapi, Henv in Htoken. by destruct Htoken as [_ ->].
    + apply Hfail; [done|]. by apply unset_is_falsy.
Qed.

Lemma room_token_witness :
  (exists s' app,
     setup quiet_world initial = (s', inr app)
     /\ token (app_transport app) = Some "jwt:assistant")
  /\ (exists s' app,
        setup no_livekit_package initial = (s', inr app)
        /\ token (app_transport app) = Some "room-token").
Proof.
  split; eexists; eexists; (split; [vm_compute; reflexivity|]).
  - eapply (room_token quiet_world initial eq_refl eq_refl
            : forall s' app,
                setup quiet_world initial = (s', inr app) ->
                token (app_transport app) = Some "jwt:assistant").
    vm_compute. reflexivity.
  - eapply (room_token no_livekit_package initial eq_refl eq_refl
            : forall s' app,
                setup no_livekit_package initial = (s', inr app) ->
                token (app_transport app) = Some "room-token").
    vm_compute. reflexivity.
Defined.

(** C10 as stated fails when [to_jwt] refuses the access token, as the
    livekit package does for an empty room: with [LIVEKIT_ROOM] set to the
    empty string and the package available, no JWT is minted; [main] ends
    with the [ValueError] of [to_jwt] and the transport is never built. *)
Lemma empty_room_mints_no_token :
  livekit_api empty_room = Some validating
  /\ environ empty_room !! "LIVEKIT_ROOM" = Some ""
  /\ (exists s',
        main empty_room initial
        = (s', inl (ValueError "identity and room must be set when joining a room"))
        /\ Construct "LiveKitTransport" ∉ log s')
  /\ forall s' app, setup empty_room initial ≠ (s', inr app).
Proof.
  split; [reflexivity|]. split; [reflexivity|]. split.
  - eexists. split; [vm_compute; reflexivity|].
    intros Hin. vm_compute in Hin.
    repeat (apply elem_of_cons in Hin as [Hin|Hin]; [discriminate|]).
    by apply elem_of_nil in Hin.
  - intros s' app Hrun. vm_compute in Hrun. discriminate.
Qed.

(** ** A start-up that returns *)

(** What a start-up that returns has handed to the services and to the
    transport. *)
Lemma setup_returns_services (w : World) (s s1 : Sys) (app : App) :
  setup w s = (s1, inr app) ->
  processors (app_pipeline app) !! 1
  = Some (DeepgramSTT {| stt_api_key := getenv (environ w) "DEEPGRAM_API_KEY" |})
  /\ processors (app_pipeline app) !! 4
     = Some (OpenAILLM {| llm_api_key := getenv (environ w) "OPENAI_API_KEY";
                          llm_model := "gpt-4o-mini" |})
  /\ processors (app_pipeline app) !! 7
     = Some (OpenAITTS {| tts_api_key := getenv (environ w) "OPENAI_API_KEY";
                          tts_voice := "alloy"; tts_model := "tts-1" |})
  /\ room_url (app_transport app) = getenv (environ w) "LIVEKIT_URL".
Proof.
  intros H. setup_returns H; by repeat split.
Qed.

(** X5: no service and no transport is ever built from a missing
    credential.  When start-up returns, the Deepgram key, the OpenAI key
    and the LiveKit URL are set and non-empty, the STT service holds the
    Deepgram key, the LLM and the TTS service both hold the OpenAI key, the
    transport holds the URL and a token, and a token taken from
    [LIVEKIT_TOKEN] is non-empty. *)
Theorem credentials_reach_services (w : World) (s s1 : Sys) (app : App) :
  setup w s = (s1, inr app) ->
  exists url dg openai,
    (environ w !! "LIVEKIT_URL" = Some url /\ url ≠ "")
    /\ (environ w !! "DEEPGRAM_API_KEY" = Some dg /\ dg ≠ "")
    /\ (environ w !! "OPENAI_API_KEY" = Some openai /\ openai ≠ "")
    /\ processors (app_pipeline app) !! 1
       = Some (DeepgramSTT {| stt_api_key := Some dg |})
    /\ processors (app_pipeline app) !! 4
       = Some (OpenAILLM {| llm_api_key := Some openai;
                            llm_model := "gpt-4o-mini" |})
    /\ processors (app_pipeline app) !! 7
       = Some (OpenAITTS {| tts_api_key := Some openai; tts_voice := "alloy";
                            tts_model := "tts-1" |})
    /\ room_url (app_transport app) = Some url
    /\ is_Some (token (app_transport app))
    /\ (livekit_api w = None ->
        exists t, environ w !! "LIVEKIT_TOKEN" = Some t /\ t ≠ ""
                  /\ token (app_transport app) = Some t).
Proof.
  intros H.
  destruct (setup_returns_checks _ _ _ _ H) as (Hreq & Hdg).
  destruct (setup_returns_services _ _ _ _ H) as (Hstt & Hllm & Htts & Hurl).
  pose proof (setup_returns_token _ _ _ _ H) as Htoken.
  pose proof (required_present_true w Hreq) as Hpresent.
  destruct (proj1 (truthy_Some _) (Hpresent "LIVEKIT_URL" ltac:(set_solver)))
    as (url & Eurl & Hurl').
  destruct (proj1 (truthy_Some _) (Hpresent "OPENAI_API_KEY" ltac:(set_solver)))
    as (openai & Eopenai & Hopenai).
  destruct (proj1 (truthy_Some _) Hdg) as (dg & Edg & Hdg').
  exists url, dg, openai.
  rewrite Hstt, Hllm, Htts, Hurl, Edg, Eopenai, Eurl.
  unfold getenv in Eurl, Edg, Eopenai.
  repeat split; try done.
  - destruct (livekit_api w).
    + destruct Htoken as (jwt & _ & ->). by eexists.
    + destruct Htoken as [Htok ->].
      apply truthy_Some in Htok as (t & -> & _). by eexists.
  - intros Hapi. rewrite Hapi in Htoken. destruct Htoken as [Htok ->].
    apply truthy_Some in Htok as (t & Et & Ht). exists t. by rewrite Et.
Qed.

Lemma credentials_reach_services_witness :
  exists s1 app,
    setup no_livekit_package initial = (s1, inr app)
    /\ processors (app_pipeline app) !! 1
       = Some (DeepgramSTT {| stt_api_key := Some "dg" |})
    /\ token (app_transport app) = Some "room-token".
Proof.
  eexists; eexists. split; [vm_compute; reflexivity|].
  edestruct (credentials_reach_services no_livekit_package initial)
    as (url & dg & openai & _ & [Edg _] & _ & Hstt & _ & _ & _ & _ & Htok);
    [vm_compute; reflexivity|].
  destruct (Htok eq_refl) as (t & Et & _ & Htoken).
  assert (dg = "dg") as -> by (vm_compute in Edg; congruence).
  assert (t = "room-token") as -> by (vm_compute in Et; congruence).
  split; [exact Hstt | exact Htoken].
Defined.

(** The state a start-up that returns leaves. *)
(** The state a start-up that returns leaves. *)
Lemma setup_returns_state (w : World) (s s1 : Sys) (app : App) :
  setup w s = (s1, inr app) ->
  s1 = {| heap := <[messages_ref (app_context app) := [system_message]]> (heap s);
          queue := queue s;
          log := log s ++ startup_log w |}
  /\ messages_ref (app_context app) = fresh (dom (heap s)).
Proof.
  unfold startup_log, startup_calls, connecting_lines.
  intros H. setup_returns H;
    (split; [|reflexivity]);
    cbn -[fresh dom insert]; by rewrite <- !app_assoc.
Qed.

(** X6: a start-up that returns has printed exactly the two connection
    lines, never the Deepgram warning, and has then made each constructor
    call once, in source order, those for the access token and its grants
    only when the livekit package could be imported; it has queued no
    frame and has run nothing. *)
Theorem startup_log_exact (w : World) (s s1 : Sys) (app : App) :
  setup w s = (s1, inr app) ->
  log s1 = log s ++ startup_log w
  /\ queue s1 = queue s
  /\ (forall line, line ∈ deepgram_warning -> Print line ∉ startup_log w)
  /\ NoDup (startup_calls w).
Proof.
  intros H. destruct (setup_returns_state _ _ _ _ H) as [-> _].
  split; [done|]. split; [done|]. split.
  - intros line Hline Hin. unfold startup_log in Hin.
    apply elem_of_app in Hin as [Hin|Hin].
    + apply list_elem_of_fmap in Hin as (line' & [= <-] & Hin).
      unfold connecting_lines, deepgram_warning in *.
      repeat (apply elem_of_cons in Hline as [->|Hline]);
        try (by apply elem_of_nil in Hline);
        repeat (apply elem_of_cons in Hin as [Hin|Hin]);
        try (by apply elem_of_nil in Hin); discriminate.
    + apply list_elem_of_fmap in Hin as (class & [=] & _).
  - unfold startup_calls. destruct (livekit_api w); cbn; apply NoDup_ListNoDup;
      repeat (constructor; [cbn; intuition discriminate|]); constructor.
Qed.

Lemma startup_log_exact_witness :
  exists s1 app,
    setup no_livekit_package initial = (s1, inr app)
    /\ length (log s1) = 16.
Proof.
  eexists; eexists. split; [vm_compute; reflexivity|].
  edestruct (startup_log_exact no_livekit_package initial) as (Hlog & _);
    [vm_compute; reflexivity|].
  rewrite Hlog. reflexivity.
Defined.

(** X7: start-up allocates exactly one list, the context's messages, at a
    location that was free, and leaves every list that existed as it
    was. *)
Theorem setup_allocates_one_list (w : World) (s s1 : Sys) (app : App) :
  setup w s = (s1, inr app) ->
  let l := messages_ref (app_context app) in
  heap s !! l = None
  /\ heap s1 = <[l := [system_message]]> (heap s)
  /\ forall l' ms, heap s !! l' = Some ms -> heap s1 !! l' = Some ms.
Proof.
  intros H. cbn zeta. destruct (setup_returns_state _ _ _ _ H) as [-> Hl].
  assert (Hfree : heap s !! messages_ref (app_context app) = None).
  { rewrite Hl. apply not_elem_of_dom, is_fresh. }
  split; [done|]. split; [done|].
  intros l' ms Hl'. cbn [heap]. rewrite lookup_insert_ne; [done|].
  intros Heq. rewrite Heq in Hfree. by rewrite Hfree in Hl'.
Qed.

Lemma setup_allocates_one_list_witness :
  exists s1 app,
    setup quiet_world initial = (s1, inr app)
    /\ heap s1 = {[ messages_ref (app_context app) := [system_message] ]}.
Proof.
  eexists; eexists. split; [vm_compute; reflexivity|].
  edestruct (setup_allocates_one_list quiet_world initial) as (_ & Hheap & _);
    [vm_compute; reflexivity|].
  rewrite Hheap. reflexivity.
Defined.

(** ** The transport *)

(** X13: the transport is built for the URL of [LIVEKIT_URL], with audio
    in and out, no video, and the voice-activity detector configured
    with [start_secs=0.3] and [stop_secs=0.5] (lines 128 to 143). *)
Lemma transport_configuration (w : World) (s s' : Sys) (app : App) :
  setup w s = (s', inr app) ->
  room_url (app_transport app) = getenv (environ w) "LIVEKIT_URL"
  /\ params (app_transport app)
     = {| audio_in_enabled := true; audio_out_enabled := true;
          video_in_enabled := false; video_out_enabled := false;
          vad_analyzer :=
            {| vad_params :=
                 {| start_secs := 0.3%float; stop_secs := 0.5%float |} |} |}.
Proof.
  intros H. setup_returns H; split; reflexivity.
Qed.

Lemma transport_configuration_witness :
  exists s1 app,
    setup quiet_world initial = (s1, inr app)
    /\ room_url (app_transport app) = Some "wss://voice.example.test"
    /\ video_in_enabled (params (app_transport app)) = false.
Proof.
  eexists; eexists. split; [vm_compute; reflexivity|].
  edestruct (transport_configuration quiet_world initial) as [Hurl Hparams];
    [vm_compute; reflexivity|].
  rewrite Hurl, Hparams. split; reflexivity.
Defined.

(** ** What [main] depends on *)

Lemma main_of_setup (w : World) (env : gmap string string) (s : Sys) :
  setup (with_environ w env) s = setup w s ->
  main (with_environ w env) s = main w s.
Proof. intros H. unfold main, bind. rewrite H. reflexivity. Qed.

(** X10: [main] reads the environment through eight variables only: two
    environments that agree on them give the same run, whatever else they
    hold. *)
Theorem unread_variables_ignored (w : World) (env : gmap string string) (s : Sys) :
  (forall k, k ∈ read_variables -> env !! k = environ w !! k) ->
  main (with_environ w env) s = main w s.
Proof.
  intros Hagree. apply main_of_setup.
  unfold setup, import_livekit, getenv, getenv_default, with_environ.
  cbn [environ livekit_api].
  rewrite !Hagree by (unfold read_variables, required_variables; set_solver).
  reflexivity.
Qed.

Lemma unread_variables_ignored_witness :
  main (with_environ two_callers (<["HOME" := "/root"]> full_env)) initial
  = main two_callers initial.
Proof.
  apply (unread_variables_ignored two_callers).
  intros k Hk. apply lookup_insert_ne. intros <-.
  unfold read_variables, required_variables in Hk. cbn in Hk.
  repeat (apply elem_of_cons in Hk as [Hk|Hk]; [discriminate|]).
  by apply elem_of_nil in Hk.
Defined.

(** X11: when the livekit package can be imported, [LIVEKIT_TOKEN] is
    never consulted: setting, changing or removing it changes nothing. *)
Theorem token_variable_unused_when_minting (w : World)
    (env : gmap string string) (s : Sys) :
  is_Some (livekit_api w) ->
  (forall k, k ∈ read_variables -> k ≠ "LIVEKIT_TOKEN" ->
             env !! k = environ w !! k) ->
  main (with_environ w env) s = main w s.
Proof.
  intros [to_jwt Hapi] Hagree. apply main_of_setup.
  unfold setup, import_livekit, getenv, getenv_default, with_environ.
  cbn [environ livekit_api].
  rewrite !Hagree by (unfold read_variables, required_variables; set_solver).
  rewrite Hapi. split_tests;
    unfold try_except, mint, bind; cbn -[fresh dom insert];
    split_jwt; reflexivity.
Qed.

Lemma token_variable_unused_when_minting_witness :
  main (with_environ two_callers (<["LIVEKIT_TOKEN" := "stale"]> full_env)) initial
  = main two_callers initial.
Proof.
  apply (token_variable_unused_when_minting two_callers).
  - by eexists.
  - intros k _ Hk. by apply lookup_insert_ne.
Defined.

(** ** The task at work *)

Lemma setup_assembled (w : World) (s s1 : Sys) (app : App) :
  setup w s = (s1, inr app) -> assembled app.
Proof.
  intros H. unfold assembled, registered, script_params.
  setup_returns H; (split; [reflexivity|]); (split; [reflexivity|]);
    by eexists _, _, _, _.
Qed.

Lemma applied_nothing (c : LLMContext) (e : Effect) (s : Sys) :
  effect_messages e = [] -> effect_frames e = [] -> effect_log e = [] ->
  applied c e s = s.
Proof.
  unfold applied. intros Hm Hf Hl. rewrite Hf, Hl, !app_nil_r.
  destruct e; cbn in Hm; try discriminate; by destruct s.
Qed.

(** What the registered handlers do with an event. *)
Lemma call_registered (c : LLMContext) (task : PipelineTask)
    (ev : TransportEvent) (s : Sys) :
  call_event_handler (registered task) ev s = (applied c (Dispatch ev) s, inr tt).
Proof.
  destruct ev as [v|v|v|v]; destruct v as [x|attrs];
    try (cbn; by rewrite applied_nothing).
  1,2: unfold applied, effect_log, effect_frames, handler_log, handler_frames,
      registered, on_participant_connected, on_participant_disconnected,
      on_room_connected, on_room_disconnected, getattr, try_except, bind;
    cbn -[lookup]; destruct (attrs !! "identity");
    destruct s; cbn; rewrite <- ?app_assoc, ?app_nil_r; reflexivity.
  1,2: unfold applied, effect_log, effect_frames, handler_log, handler_frames,
      registered, on_participant_connected, on_participant_disconnected,
      on_room_connected, on_room_disconnected, getattr, try_except, bind;
    cbn -[lookup]; destruct (attrs !! "name");
    destruct s; cbn; rewrite <- ?app_assoc, ?app_nil_r; reflexivity.
Qed.

(** What the assembled pipeline does with a finalized turn. *)
Lemma forward_assembled (c : LLMContext) (t : Turn) (s : Sys)
    (transport : LiveKitTransport) (stt : DeepgramSTTService)
    (llm : OpenAILLMService) (tts : OpenAITTSService) :
  let stages :=
    [ TransportInput transport; DeepgramSTT stt;
      LLMUserResponseAggregator; ContextAggregatorUser c;
      OpenAILLM llm; LLMResponseAggregator;
      ContextAggregatorAssistant c; OpenAITTS tts;
      TransportOutput transport ] in
  forward (downstream stages t) t s = (applied c (Finalize t) s, inr tt).
Proof.
  destruct t, s; unfold applied; cbn; rewrite !app_nil_r; reflexivity.
Qed.

Lemma perform_applied (app : App) (e : Effect) (s : Sys) :
  assembled app ->
  perform (app_task app) (app_handlers app) e s
  = (applied (app_context app) e s, inr tt).
Proof.
  intros (Htable & _ & transport & stt & llm & tts & Hstages).
  destruct e as [ev|t|n|n audio]; unfold perform.
  - rewrite Htable. apply call_registered.
  - rewrite Hstages. apply forward_assembled.
  - destruct s. unfold applied. cbn. by rewrite app_nil_r.
  - destruct s. unfold applied. cbn. by rewrite app_nil_r.
Qed.

Lemma effected_app (c : LLMContext) (es1 es2 : list Effect) (s : Sys) :
  effected c (es1 ++ es2) s = effected c es2 (effected c es1 s).
Proof. unfold effected. by rewrite foldl_app. Qed.

Lemma perform_all_effected (app : App) (es : list Effect) (s : Sys) :
  assembled app ->
  perform_all (app_task app) (app_handlers app) es s
  = (effected (app_context app) es s, inr tt).
Proof.
  intros Happ. revert s. induction es as [|e es IH]; intros s; [reflexivity|].
  cbn [perform_all]. unfold bind at 1. rewrite (perform_applied _ _ _ Happ).
  rewrite IH. reflexivity.
Qed.


(** The task at work: its effects are those of the trace. *)
Lemma play_exact (app : App) (acts : list Activity) (r : Runtime) (s : Sys) :
  assembled app ->
  play (app_task app) (app_handlers app) acts r s
  = (effected (app_context app) (trace script_params acts r) s,
     inr (final script_params acts r)).
Proof.
  intros Happ. pose proof Happ as (_ & Hparams & _).
  revert r s. induction acts as [|a acts IH]; intros r s; [reflexivity|].
  cbn [play trace final]. rewrite Hparams.
  destruct (transition script_params a r) as [r' es]. cbn [fst snd].
  unfold bind at 1. rewrite (perform_all_effected _ _ _ Happ).
  rewrite IH. by rewrite effected_app.
Qed.

(** What [main] does after a start-up that returned. *)
Lemma main_exact (w : World) (s s1 : Sys) (app : App) :
  setup w s = (s1, inr app) ->
  main w s
  = (closed w (effected (app_context app) (effects w) (opened s1)), exit_of w).
Proof.
  intros H. pose proof (setup_assembled _ _ _ _ H) as Happ.
  unfold main, bind at 1. rewrite H.
  unfold run, cleanup, try_finally, try_except.
  cbn [construct emit bind ret heap queue log]. unfold bind.
  rewrite (play_exact _ _ _ _ Happ).
  unfold closed, exit_of, interrupted, effects, opened.
  destruct (run_outcome w) as [[msg| | |nm]|];
    destruct (cleanup_outcome w) as [e'|];
    cbn [raise ret print emit log heap queue];
    rewrite <- ?app_assoc; reflexivity.
Qed.

Lemma effected_log (c : LLMContext) (es : list Effect) (s : Sys) :
  log (effected c es s) = log s ++ concat (effect_log <$> es).
Proof.
  revert s. induction es as [|e es IH]; intros s.
  - cbn. by rewrite app_nil_r.
  - unfold effected in *. cbn [foldl fmap list_fmap concat]. rewrite IH.
    unfold flip, applied. cbn [log]. by rewrite app_assoc.
Qed.

Lemma effected_queue (c : LLMContext) (es : list Effect) (s : Sys) :
  queue (effected c es s) = queue s ++ concat (effect_frames <$> es).
Proof.
  revert s. induction es as [|e es IH]; intros s.
  - cbn. by rewrite app_nil_r.
  - unfold effected in *. cbn [foldl fmap list_fmap concat]. rewrite IH.
    unfold flip, applied. cbn [queue]. by rewrite app_assoc.
Qed.


(** Effects of the frames of the collaborators: a transport event is
    dispatched, and nothing else is. *)
Lemma transition_dispatch (params : PipelineParams) (a : Activity) (r : Runtime) :
  match a with
  | Raised ev => transition params a r = (r, [Dispatch ev])
  | _ => Forall (fun e => match e with Dispatch _ => False | _ => True end)
           (transition params a r).2
  end.
Proof.
  destruct a; cbn; try done;
    repeat (match goal with
            | |- context [match ?x with _ => _ end] => destruct x
            | |- context [if ?x then _ else _] => destruct x
            end; cbn);
    repeat constructor.
Qed.

(** ** Event handlers *)

Lemma handler_log_script (ev : TransportEvent) :
  Forall script_call (handler_log ev)
  /\ cleanup_calls (handler_log ev) = 0.
Proof.
  unfold handler_log.
  destruct (attribute (payload_of ev) (attribute_read ev)); [|by split].
  destruct ev; split; repeat constructor.
Qed.

(** C7, at the input on which the code fails: when the transport hands the
    handler the participant's id, a [str], reading [participant.identity]
    on line 188 raises [AttributeError] before line 190 is reached.
    Nothing is printed and no frame is queued, by the handler alone or
    through the dispatch of the event. *)
Theorem participant_id_payload_queues_nothing (w : World) (s0 s1 : Sys) (app : App) :
  setup w s0 = (s1, inr app) ->
  forall (id : string) (s : Sys),
    on_participant_connected (app_task app) (PyStr id) s
    = (s, inl (OtherException "AttributeError"))
    /\ call_event_handler (app_handlers app) (ParticipantConnected (PyStr id)) s
       = (s, inr tt).
Proof.
  intros H id s. split; [reflexivity|].
  destruct (setup_assembled _ _ _ _ H) as (-> & _). reflexivity.
Qed.

Lemma participant_id_payload_queues_nothing_witness :
  exists s1 app,
    setup announced_by_id initial = (s1, inr app)
    /\ call_event_handler (app_handlers app)
         (ParticipantConnected (PyStr "PA_7Yk2")) s1
       = (s1, inr tt)
    /\ queue (main announced_by_id initial).1 = []
    /\ forall frames, QueueFrames frames ∉ log (main announced_by_id initial).1.
Proof.
  eexists; eexists. split; [vm_compute; reflexivity|]. split.
  - eapply (participant_id_payload_queues_nothing announced_by_id initial).
    vm_compute. reflexivity.
  - split; [vm_compute; reflexivity|].
    intros frames Hin. vm_compute in Hin.
    repeat (apply elem_of_cons in Hin as [Hin|Hin]; [discriminate|]).
    by apply elem_of_nil in Hin.
Defined.

(** ** Shutdown *)

Lemma cleanup_calls_app (l1 l2 : list Event) :
  cleanup_calls (l1 ++ l2) = cleanup_calls l1 + cleanup_calls l2.
Proof. unfold cleanup_calls. by rewrite List.filter_app, length_app. Qed.

Lemma setup_no_cleanup (w : World) (s s' : Sys) (app : App) :
  setup w s = (s', inr app) -> cleanup_calls (log s') = cleanup_calls (log s).
Proof.
  intros H. setup_returns H; cbn [log]; rewrite !cleanup_calls_app; cbn; lia.
Qed.

Lemma effects_no_cleanup (es : list Effect) :
  cleanup_calls (concat (effect_log <$> es)) = 0.
Proof.
  induction es as [|e es IH]; [reflexivity|].
  cbn [fmap list_fmap concat]. rewrite cleanup_calls_app, IH.
  destruct e; cbn [effect_log]; try reflexivity.
  by rewrite (proj2 (handler_log_script ev)).
Qed.

(** C8: whenever [main] gets to run the task, [transport.cleanup()] is
    called exactly once and is the last thing [main] does, however the run
    ends (normally, with [KeyboardInterrupt] or with another exception).
    A [KeyboardInterrupt] raised by the run is caught: the shutdown line is
    printed just before the clean-up and, unless the clean-up itself
    raises, [main] returns normally. *)
Theorem cleanup_always_runs (w : World) (s s1 : Sys) (app : App) :
  setup w s = (s1, inr app) ->
  exists s2,
    main w s = (s2, exit_of w)
    /\ last (log s2) = Some TransportCleanup
    /\ cleanup_calls (log s2) = S (cleanup_calls (log s))
    /\ (run_outcome w = Some KeyboardInterrupt ->
        exists before, log s2 = before ++ [shutting_down; TransportCleanup]).
Proof.
  intros H.
  exists (closed w (effected (app_context app) (effects w) (opened s1))).
  split; [by apply main_exact|].
  unfold closed. cbn [log]. rewrite effected_log. unfold opened. cbn [log].
  split; [by rewrite !app_assoc, last_snoc|].
  split.
  - rewrite !cleanup_calls_app, (setup_no_cleanup _ _ _ _ H), effects_no_cleanup.
    destruct (interrupted w); cbn; lia.
  - intros Hki. unfold interrupted. rewrite Hki. by eexists.
Qed.

Lemma cleanup_always_runs_witness :
  exists s2,
    main interrupted_world initial = (s2, inr tt)
    /\ last (log s2) = Some TransportCleanup
    /\ cleanup_calls (log s2) = 1
    /\ queue s2 = [LLMRunFrame].
Proof.
  edestruct (cleanup_always_runs interrupted_world initial)
    as (s2 & Hmain & Hlast & Hcount & _); [vm_compute; reflexivity|].
  exists s2. split; [exact Hmain|]. split; [exact Hlast|]. split; [exact Hcount|].
  assert (Hq : queue (main interrupted_world initial).1 = [LLMRunFrame])
    by (vm_compute; reflexivity).
  by rewrite Hmain in Hq.
Defined.

(** ** Frames queued over a run *)

Lemma trace_frames (params : PipelineParams) (acts : list Activity) (r : Runtime) :
  concat (effect_frames <$> trace params acts r)
  = replicate (connections acts) LLMRunFrame.
Proof.
  revert r. induction acts as [|a acts IH]; intros r; [reflexivity|].
  cbn [trace]. rewrite fmap_app, concat_app, IH. unfold connections.
  pose proof (transition_dispatch params a r) as Hstep.
  destruct a as [ev| | | | | | | | | ];
    try (cbn [List.filter];
         induction Hstep as [|e es He _ IHes]; [reflexivity|];
         destruct e; [done|exact IHes..]).
  rewrite Hstep. cbn [snd fmap list_fmap concat effect_frames List.filter].
  unfold handler_frames.
  destruct ev as [v|v|v|v]; try reflexivity.
  cbn [payload_of attribute_read]. by destruct (attribute v "identity").
Qed.

(** X8: however the transport describes the participant, and whatever
    else reaches the task, [main] ends with one [LLMRunFrame] queued for
    each participant-connected event whose payload has an [identity], and
    none for any other event: a payload without [identity], such as the
    participant's id as a [str], makes the handler raise before it queues
    the frame. *)
Theorem one_run_frame_per_connection (w : World) (s s1 : Sys) (app : App) :
  setup w s = (s1, inr app) ->
  queue (main w s).1
  = queue s ++ replicate (connections (activity w)) LLMRunFrame.
Proof.
  intros H. rewrite (main_exact _ _ _ _ H). cbn [fst closed queue].
  rewrite effected_queue. unfold effects. rewrite trace_frames.
  destruct (setup_returns_state _ _ _ _ H) as [-> _]. reflexivity.
Qed.

Lemma one_run_frame_per_connection_witness :
  queue (main two_callers initial).1 = [LLMRunFrame; LLMRunFrame].
Proof.
  erewrite (one_run_frame_per_connection two_callers initial);
    [reflexivity | vm_compute; reflexivity].
Defined.

(** ** The conversation context *)











(** ** Interruption *)

Lemma script_calls_quiet (l : list Event) :
  Forall script_call l ->
  interrupts_respected l
  /\ (forall t, ControlInterrupt t ∉ l)
  /\ (forall t, silent t l).
Proof.
  induction 1 as [|e l He _ (IH1 & IH2 & IH3)].
  - split; [done|]. split; [intros t Hin|intros t audio Hin];
      by apply elem_of_nil in Hin.
  - split; [by destruct e|].
    split; [intros t Hin|intros t audio Hin];
      apply elem_of_cons in Hin as [Heq|Hin]; try (by subst e);
      [by eapply IH2|by eapply IH3].
Qed.

Lemma silent_app (t : nat) (l1 l2 : list Event) :
  silent t l1 -> silent t l2 -> silent t (l1 ++ l2).
Proof.
  intros H1 H2 audio Hin. apply elem_of_app in Hin as [Hin|Hin];
    [by eapply H1|by eapply H2].
Qed.

Lemma respected_app (l1 l2 : list Event) :
  interrupts_respected l1 ->
  interrupts_respected l2 ->
  (forall t, ControlInterrupt t ∈ l1 -> silent t l2) ->
  interrupts_respected (l1 ++ l2).
Proof.
  induction l1 as [|e l1 IH]; intros H1 H2 Hcut; [done|].
  assert (Hrest : forall t, ControlInterrupt t ∈ l1 -> silent t l2)
    by (intros t Hin; apply Hcut; by apply list_elem_of_further).
  destruct e; cbn in *; try (by apply IH).
  destruct H1 as [Hsilent H1]. split; [|by apply IH].
  apply silent_app; [done|]. apply Hcut, list_elem_of_here.
Qed.

Lemma respected_split (l : list Event) :
  interrupts_respected l ->
  forall pre post t, l = pre ++ ControlInterrupt t :: post -> silent t post.
Proof.
  intros Hl pre. revert l Hl. induction pre as [|e pre IH]; intros l Hl post t ->.
  - by destruct Hl.
  - apply (IH (pre ++ ControlInterrupt t :: post)); [|done].
    destruct e; cbn in Hl; try done. by destruct Hl.
Qed.

(** What one frame logs. *)
Lemma transition_log (params : PipelineParams) (a : Activity) (r : Runtime) :
  let l := concat (effect_log <$> (transition params a r).2) in
  (exists ev, a = Raised ev /\ l = handler_log ev
              /\ (transition params a r).1 = r)
  \/ l = []
  \/ (l = [ControlInterrupt (turn r)]
      /\ turn (transition params a r).1 = turn r
      /\ cancelled (transition params a r).1 = true
      /\ buffered (transition params a r).1 = [])
  \/ (exists n audio rest,
        l = [SendAudio n audio] /\ buffered r = (n, audio) :: rest
        /\ buffered (transition params a r).1 = rest
        /\ turn (transition params a r).1 = turn r
        /\ cancelled (transition params a r).1 = cancelled r).
Proof.
  destruct a; cbn.
  1: { left. eexists. by rewrite app_nil_r. }
  all: repeat (match goal with
               | |- context [match ?x with _ => _ end] => destruct x eqn:?
               | |- context [if ?x then _ else _] => destruct x eqn:?
               end; cbn);
    try (right; left; reflexivity).
  - right; right; left. done.
  - right; right; right. by eexists _, _, _.
Qed.

(** A frame changes what is buffered only by adding audio of the current,
    uncancelled turn or by taking the oldest piece away, and the turn
    number only by starting the next turn. *)
Lemma transition_buffer (params : PipelineParams) (a : Activity) (r : Runtime) :
  let r' := (transition params a r).1 in
  (turn r' = turn r /\ cancelled r' = cancelled r /\ buffered r' = buffered r)
  \/ (turn r' = turn r /\ cancelled r' = true /\ buffered r' = [])
  \/ (turn r' = S (turn r) /\ cancelled r' = false /\ buffered r' = buffered r)
  \/ (exists audio, turn r' = turn r /\ cancelled r' = cancelled r
                    /\ cancelled r = false
                    /\ buffered r' = buffered r ++ [(turn r, audio)])
  \/ (exists chunk, turn r' = turn r /\ cancelled r' = cancelled r
                    /\ buffered r = chunk :: buffered r').
Proof.
  destruct a; cbn; try (left; done).
  all: unfold generating;
    repeat (match goal with
            | |- context [match ?x with _ => _ end] => destruct x eqn:?
            | |- context [if ?x then _ else _] => destruct x eqn:?
            end; cbn in *);
    try (left; done).
  all: try (right; left; done).
  all: try (right; right; left; done).
  all: try (right; right; right; right; by eexists).
  match goal with
  | H : _ && _ = true |- _ =>
      apply andb_true_iff in H as [Hlive Hturn];
      apply Nat.eqb_eq in Hturn; subst
  end.
  right; right; right; left. exists audio.
  destruct (fsm r); try discriminate; apply negb_true_iff in Hlive; done.
Qed.

(** Once a turn is interrupted it stays so, and nothing of it is sent. *)
Lemma interrupted_turn_kept (params : PipelineParams) (t : nat) (a : Activity)
    (r : Runtime) :
  interrupted_turn t r ->
  interrupted_turn t (transition params a r).1
  /\ silent t (concat (effect_log <$> (transition params a r).2)).
Proof.
  intros [Hbuf Hturn]. split.
  - unfold interrupted_turn.
    destruct (transition_buffer params a r)
      as [(-> & -> & ->)|[(-> & -> & ->)|[(-> & -> & ->)|
          [(audio & -> & -> & Hlive & ->)|(chunk & -> & -> & Hchunk)]]]].
    + done.
    + split; [constructor|]. destruct Hturn as [[-> _]|Hlt]; [by left|by right].
    + split; [done|]. right. destruct Hturn as [[-> _]|Hlt]; lia.
    + destruct Hturn as [[_ Hcancelled]|Hlt]; [congruence|].
      split; [|by right]. apply Forall_app. split; [done|].
      constructor; [cbn; lia|constructor].
    + rewrite Hchunk in Hbuf. inversion Hbuf; subst. done.
  - destruct (transition_log params a r)
      as [(ev & _ & -> & _)|[->|[(-> & _)|(n & audio & rest & -> & Hb & _)]]].
    + apply script_calls_quiet, handler_log_script.
    + intros audio Hin. by apply elem_of_nil in Hin.
    + intros audio Hin. apply list_elem_of_singleton in Hin. discriminate.
    + intros audio' Hin. apply list_elem_of_singleton in Hin.
      injection Hin as <- <-. rewrite Hb in Hbuf. inversion Hbuf; subst. done.
Qed.

Lemma interrupted_turn_silent (params : PipelineParams) (t : nat)
    (acts : list Activity) (r : Runtime) :
  interrupted_turn t r ->
  silent t (concat (effect_log <$> trace params acts r)).
Proof.
  revert r. induction acts as [|a acts IH]; intros r Hr.
  - intros audio Hin. by apply elem_of_nil in Hin.
  - cbn [trace]. rewrite fmap_app, concat_app.
    destruct (interrupted_turn_kept params t a r Hr) as [Hr' Hsilent].
    apply silent_app; [done|by apply IH].
Qed.

(** The frames of a run respect every interrupt. *)
Lemma trace_respected (params : PipelineParams) (acts : list Activity) (r : Runtime) :
  interrupts_respected (concat (effect_log <$> trace params acts r)).
Proof.
  revert r. induction acts as [|a acts IH]; intros r; [done|].
  cbn [trace]. rewrite fmap_app, concat_app.
  destruct (transition_log params a r)
    as [(ev & _ & Hl & _)|[Hl|[(Hl & Hturn & Hcancelled & Hbuf)
        |(n & audio & rest & Hl & _)]]];
    cbn zeta in Hl; rewrite Hl.
  - apply respected_app; [|apply IH|].
    + apply script_calls_quiet, handler_log_script.
    + intros t Hin.
      by apply (proj1 (proj2 (script_calls_quiet _ (proj1 (handler_log_script ev))))) in Hin.
  - apply IH.
  - cbn. split; [|apply IH].
    apply interrupted_turn_silent. split; [rewrite Hbuf; constructor|by left].
  - cbn. apply IH.
Qed.

(** C3: whatever reaches the running task, after each interrupt frame the
    pipeline emits for an assistant turn, no audio of that turn is handed
    to the transport: the pieces that were buffered and not yet played are
    dropped, and pieces of the interrupted turn that the TTS service still
    delivers are dropped too. *)
Theorem interrupted_audio_never_sent (w : World) (s s1 : Sys) (app : App) :
  setup w s = (s1, inr app) ->
  exists l,
    log (main w s).1 = log s ++ l
    /\ forall pre post t,
         l = pre ++ ControlInterrupt t :: post ->
         forall audio, SendAudio t audio ∉ post.
Proof.
  intros H. rewrite (main_exact _ _ _ _ H). cbn [fst closed log].
  rewrite effected_log. cbn [opened log].
  destruct (setup_returns_state _ _ _ _ H) as [-> _]. cbn [log].
  eexists. split; [by rewrite <- !app_assoc|].
  apply respected_split.
  assert (Hscript : forall l, Forall script_call l ->
            forall l', interrupts_respected l' -> interrupts_respected (l ++ l')).
  { intros l Hl l' Hl'.
    destruct (script_calls_quiet l Hl) as (H1 & H2 & _).
    apply respected_app; [done..|]. intros t Hin. by apply H2 in Hin. }
  apply Hscript.
  { unfold startup_log. apply Forall_app.
    split; apply Forall_fmap, Forall_true; done. }
  apply (Hscript [_; _]); [by repeat constructor|].
  apply respected_app; [apply trace_respected| |].
  - apply script_calls_quiet. destruct (interrupted w); by repeat constructor.
  - intros t _. apply script_calls_quiet.
    destruct (interrupted w); by repeat constructor.
Qed.

Lemma interrupted_audio_never_sent_witness :
  exists l,
    log (main (conversation cut_in) initial).1 = log initial ++ l
    /\ List.filter (fun e => match e with
                             | ControlInterrupt _ | SendAudio _ _ => true
                             | _ => false
                             end) l
       = [ SendAudio 1 [Byte.x01]; ControlInterrupt 1; SendAudio 2 [Byte.x04] ]
    /\ forall pre post t,
         l = pre ++ ControlInterrupt t :: post ->
         forall audio, SendAudio t audio ∉ post.
Proof.
  edestruct (interrupted_audio_never_sent (conversation cut_in) initial)
    as (l & Hlog & Hsilent); [vm_compute; reflexivity|].
  exists l. split; [exact Hlog|]. split; [|exact Hsilent].
  cbn [log initial app] in Hlog. rewrite <- Hlog. vm_compute. reflexivity.
Defined.

(** ** Interruptions allowed *)

(** C6: the task is created with [allow_interruptions=True] (and
    [enable_metrics=True]), and the running task reads the flag: with the
    task [main] built, speech starting while the assistant speaks gives
    the user the floor at once and emits the interrupt frame, and nothing
    is queued; with a task that does not allow interruptions the same
    frame leaves the assistant speaking and queues the interruption. *)
Theorem interruptions_allowed (w : World) (s s' : Sys) (app : App) :
  setup w s = (s', inr app) ->
  task_params (app_task app)
  = {| allow_interruptions := true; enable_metrics := true |}
  /\ (forall (r : Runtime) (s0 : Sys),
        fsm r = AssistantSpeaking ->
        exists r',
          play (app_task app) (app_handlers app) [SpeechStarted] r s0
          = ({| heap := heap s0; queue := queue s0;
                log := log s0 ++ [ControlInterrupt (turn r)] |}, inr r')
          /\ fsm r' = UserSpeaking
          /\ queued_interruption r' = queued_interruption r
          /\ buffered r' = [])
  /\ (forall (params : PipelineParams) (r : Runtime),
        allow_interruptions params = false ->
        fsm r = AssistantSpeaking ->
        let r' := (transition params SpeechStarted r).1 in
        (transition params SpeechStarted r).2 = []
        /\ fsm r' = AssistantSpeaking
        /\ queued_interruption r' = true
        /\ buffered r' = buffered r).
Proof.
  intros H. pose proof (setup_assembled _ _ _ _ H) as Happ.
  pose proof Happ as (_ & Hparams & _).
  split; [exact Hparams|]. split.
  - intros r s0 Hfsm. rewrite (play_exact _ _ _ _ Happ).
    cbn [trace final transition]. rewrite Hfsm. cbn.
    eexists.
    split; [destruct s0; unfold effected, applied; cbn; by rewrite app_nil_r|].
    done.
  - intros params r Hallow Hfsm. cbn. by rewrite Hfsm, Hallow.
Qed.

Lemma interruptions_allowed_witness :
  exists s' app,
    setup quiet_world initial = (s', inr app)
    /\ task_params (app_task app)
       = {| allow_interruptions := true; enable_metrics := true |}
    /\ exists r',
         play (app_task app) (app_handlers app) [SpeechStarted]
           {| fsm := AssistantSpeaking; turn := 1; cancelled := false;
              queued_interruption := false; user_text := "";
              assistant_text := ""; buffered := [(1, [Byte.x02])] |} s'
         = ({| heap := heap s'; queue := queue s';
               log := log s' ++ [ControlInterrupt 1] |}, inr r')
         /\ fsm r' = UserSpeaking
         /\ queued_interruption r' = false
         /\ buffered r' = [].
Proof.
  eexists; eexists. split; [vm_compute; reflexivity|].
  edestruct (interruptions_allowed quiet_world initial) as (Hparams & Hplay & _);
    [vm_compute; reflexivity|].
  split; [exact Hparams|].
  exact (Hplay {| fsm := AssistantSpeaking; turn := 1; cancelled := false;
                  queued_interruption := false; user_text := "";
                  assistant_text := ""; buffered := [(1, [Byte.x02])] |}
           _ eq_refl).
Defined.
